(** * Talent Match Intelligence: baseline builder and match scorer

    A shallow embedding of the scoring core of [Step 3/app.py]:
    [compute_baseline_from_benchmarks], [calculate_tv_match_vectorized] and
    [compute_match_scores_optimized]; and of the application around it:
    [get_high_performers], the data path of [main] (benchmark choice,
    ranked talent list, [get_category], summary insights),
    [generate_job_profile_openrouter] and [get_fallback_profile].  The
    four [plot_*] functions only hand frames to Plotly and are left out.

    Numbers.  The program computes on NumPy [float64] values.  They are
    embedded as [num]: either [NaN] (a missing / undefined value, what
    [pd.isna] tests for) or a finite value carried as an exact rational.
    Arithmetic is therefore the real-number reading of the Python
    expressions: binary64 rounding error, overflow and the infinities are
    abstracted away, while NaN propagation, the guards against it, and the
    decimal rounding [round(x, 2)] are kept.  The module [Binary64]
    re-evaluates the constant terms of the final score and the worked
    example of the transform bit-exactly on primitive floats.

    Tables.  A Supabase table is a list of rows (a [DataFrame] keeps row
    order); the client handle is [option database] ([None]: the client
    failed to initialise).  Queries are total, except that the
    psychometric query may raise, as the program provides for.

    Effects.  Of the Streamlit calls only [st.error] is kept: a call
    returns the messages it reported together with its value.  The job
    profile function shows [st.warning] messages instead, which it returns
    the same way; its HTTP exchange and [json.loads] are inputs.

    Library calls.  Series statistics follow pandas (NaN skipped, sample
    standard deviation); [sort_values] is a parameter with the contract of
    its default arguments. *)

From Stdlib Require Import ZArith QArith Qround Qabs Qminmax Lqa Lia.
From Stdlib Require Import List String Bool Permutation Sorted PrimFloat.
Import ListNotations.

Local Open Scope Q_scope.

(* A decimal literal in [float_scope] denotes the nearest binary64 value,
   which is how Python reads it. *)
Set Warnings "-inexact-float".

(* ------------------------------------------------------------------ *)
(** ** Numbers: float64 with NaN *)

Module Num.

Inductive num : Type :=
| NaN
| Fin (q : Q).

(** Equality up to the representation of the rational. *)
Definition equal (a b : num) : Prop :=
  match a, b with
  | NaN, NaN => True
  | Fin x, Fin y => x == y
  | _, _ => False
  end.

(** [pd.isna] *)
Definition isna (a : num) : bool :=
  match a with NaN => true | Fin _ => false end.

(** [x == 0]; false on NaN, as every comparison with NaN is. *)
Definition is_zero (a : num) : bool :=
  match a with NaN => false | Fin x => Qeq_bool x 0 end.

Definition lift2 (f : Q -> Q -> Q) (a b : num) : num :=
  match a, b with
  | Fin x, Fin y => Fin (f x y)
  | _, _ => NaN
  end.

Definition add := lift2 Qplus.
Definition sub := lift2 Qminus.
Definition mul := lift2 Qmult.

(** Division.  A zero divisor gives NaN here (the embedding has no
    infinities); every division of the program is guarded so that this
    branch is not reached. *)
Definition div (a b : num) : num :=
  match a, b with
  | Fin x, Fin y => if Qeq_bool y 0 then NaN else Fin (x / y)
  | _, _ => NaN
  end.

(** [np.abs] *)
Definition abs (a : num) : num :=
  match a with NaN => NaN | Fin x => Fin (Qabs x) end.

(** [np.maximum]: propagates NaN. *)
Definition maximum := lift2 Qmax.

(** Round half to even, to an integer ([np.rint]). *)
Definition rint (x : Q) : Z :=
  let f := Qfloor x in
  let r := x - inject_Z f in
  if Qlt_le_dec r (1 # 2) then f
  else if Qlt_le_dec (1 # 2) r then (f + 1)%Z
  else if Z.even f then f else (f + 1)%Z.

(** [round(x, 2)] on a rational: the result is a number of hundredths. *)
Definition Qround2 (x : Q) : Q := rint (x * 100) # 100.

(** [round(x, 2)] / [.round(2)]; NaN stays NaN. *)
Definition round2 (a : num) : num :=
  match a with NaN => NaN | Fin x => Fin (Qround2 x) end.

(** Built-in [sum] of a list. *)
Definition sum (l : list num) : num := fold_left add l (Fin 0).

(** [np.mean] of a non-empty list. *)
Definition mean (l : list num) : num :=
  div (sum l) (Fin (inject_Z (Z.of_nat (List.length l)))).

(** Range test [lo <= a <= hi]; false on NaN. *)
Definition within (lo hi : Q) (a : num) : Prop :=
  match a with NaN => False | Fin x => lo <= x <= hi end.

End Num.

Import Num.

Declare Scope num_scope.
Delimit Scope num_scope with num.
Infix "=n=" := Num.equal (at level 70, no associativity) : num_scope.
Local Open Scope num_scope.

(* ------------------------------------------------------------------ *)
(** ** The distance-to-match transform *)

(** [np.zeros_like(candidate_scores, dtype=float)] *)
Definition zeros_like (candidate_scores : list num) : list num :=
  map (fun _ => Fin 0) candidate_scores.

(** [calculate_tv_match_vectorized]: the candidate scores are an array,
    the baseline mean and standard deviation are scalars. *)
Definition calculate_tv_match_vectorized
    (candidate_scores : list num) (baseline_mean baseline_std : num) : list num :=
  if isna baseline_mean || isna baseline_std || is_zero baseline_std then
    zeros_like candidate_scores
  else
    let distance :=
      map (fun v => Num.mul (Num.div (Num.abs (Num.sub v baseline_mean)) baseline_std) (Fin 10))
          candidate_scores in
    map (fun d => Num.maximum (Fin 0) (Num.sub (Fin 100) d)) distance.

(* ------------------------------------------------------------------ *)
(** ** Tables *)

(** [performance_yearly] *)
Record performance_row := {
  perf_employee_id : string;
  perf_year : Z;
  perf_rating : Z
}.

(** [competencies_yearly]; a null score arrives as NaN. *)
Record competency_row := {
  comp_employee_id : string;
  comp_pillar_code : string;
  comp_score : num;
  comp_year : Z
}.

(** [profiles_psych] *)
Record psych_row := {
  psych_employee_id : string;
  pauli : num;
  gtq : num;
  iq : num
}.

(** The three tables.  [profiles_psych = None] stands for a query on that
    table that raises: both functions wrap it in their own [try/except]
    and continue with an empty frame. *)
Record database := {
  performance_yearly : list performance_row;
  competencies_yearly : list competency_row;
  profiles_psych : option (list psych_row)
}.

(** One row of a baseline frame: index label, ['mean'], ['std']. *)
Record stat_row := {
  dim : string;
  stat_mean : num;
  stat_std : num
}.

(** [{'competencies': ..., 'psychometric': ...}].  The index of each frame
    is unique, so [.loc[label, col]] is the entry of the row itself. *)
Record baseline := {
  competencies : list stat_row;
  psychometric : list stat_row
}.

(** The invariant of a baseline row: the standard deviation is NaN or not
    negative. *)
Definition std_ok (row : stat_row) : Prop :=
  match stat_std row with
  | NaN => True
  | Fin s => 0 <= s
  end.

(** One dictionary appended to [results]. *)
Record match_result := {
  employee_id : string;
  competency_score : num;
  psychometric_score : num;
  behavioral_score : num;
  contextual_score : num;
  final_match_score : num
}.

(** What a call leaves behind: the [st.error] messages it reported, in
    order, and the value it returned. *)
Record outcome (A : Type) := {
  reported : list string;
  returned : A
}.
Arguments reported {A} _.
Arguments returned {A} _.

Definition quiet {A} (a : A) : outcome A := {| reported := []; returned := a |}.
Definition st_error {A} (msg : string) (a : A) : outcome A :=
  {| reported := [msg]; returned := a |}.

(* ------------------------------------------------------------------ *)
(** ** Series statistics (pandas: NaN entries are skipped) *)

Definition dropna (l : list num) : list Q :=
  flat_map (fun a => match a with NaN => [] | Fin x => [x] end) l.

Definition Qsum (l : list Q) : Q := fold_right Qplus 0 l.

Definition Qlen (l : list Q) : Q := inject_Z (Z.of_nat (List.length l)).

(** [Series.mean()] *)
Definition series_mean (l : list num) : num :=
  match dropna l with
  | [] => NaN
  | xs => Fin (Qsum xs / Qlen xs)
  end.

(** The sample variance behind [Series.std()] (pandas default [ddof=1]):
    NaN with fewer than two values. *)
Definition series_var (l : list num) : num :=
  match dropna l with
  | [] | [_] => NaN
  | xs =>
      let m := Qsum xs / Qlen xs in
      Fin (Qsum (map (fun x => (x - m) * (x - m)) xs) / (Qlen xs - 1))
  end.

(** [round(sqrt(v), 2)] on the reals, computed exactly: with
    [s = floor (sqrt (4 * 10^4 * v))], the root of [10^4 * v] lies in
    [[s/2, (s+1)/2)], so it rounds to [s/2] when [s] is even and to
    [(s+1)/2] when [s] is odd; an exact half goes to the even neighbour. *)
Definition sqrt_round2 (v : Q) : Q :=
  let y4 := v * 40000 in
  let s := Z.sqrt (Qfloor y4) in
  let k := (s / 2)%Z in
  if Z.even s then k # 100
  else if Qeq_bool y4 (inject_Z (s * s)) then
         (if Z.even k then k else (k + 1)%Z) # 100
       else (k + 1)%Z # 100.

(** [Series.std()] followed by [.round(2)]. *)
Definition series_std_round2 (l : list num) : num :=
  match series_var l with
  | NaN => NaN
  | Fin v => Fin (sqrt_round2 v)
  end.

(* ------------------------------------------------------------------ *)
(** ** The baseline builder *)

(** Group keys of [groupby('pillar_code')]: distinct, in sorted order. *)
Fixpoint insert_key (k : string) (l : list string) : list string :=
  match l with
  | [] => [k]
  | h :: t =>
      match String.compare k h with
      | Lt => k :: l
      | Eq => l
      | Gt => h :: insert_key k t
      end
  end.

Definition group_keys (ks : list string) : list string :=
  fold_right insert_key [] ks.

Definition mem_string (x : string) (l : list string) : bool :=
  existsb (String.eqb x) l.

(** [comp_df.groupby('pillar_code')['score'].agg(['mean', 'std']).round(2)] *)
Definition groupby_pillar_mean_std (comp_df : list competency_row) : list stat_row :=
  map (fun p =>
         let scores :=
           map comp_score
               (filter (fun r => String.eqb (comp_pillar_code r) p) comp_df) in
         {| dim := p;
            stat_mean := round2 (series_mean scores);
            stat_std := series_std_round2 scores |})
      (group_keys (map comp_pillar_code comp_df)).

Definition psych_stat (label : string) (col : list num) : stat_row :=
  {| dim := label;
     stat_mean := round2 (series_mean col);
     stat_std := series_std_round2 col |}.

(** The fallback frame [{'mean': [0, 0, 0], 'std': [1, 1, 1]}]. *)
Definition fallback_psych : list stat_row :=
  map (fun label => {| dim := label; stat_mean := Fin 0; stat_std := Fin 1 |})
      ["PAULI"; "GTQ"; "IQ"]%string.

Definition fetch_psych (db : database) : list psych_row :=
  match profiles_psych db with
  | Some rows => rows
  | None => []
  end.

(** [compute_baseline_from_benchmarks]; [None] is Python's [None]. *)
Definition compute_baseline_from_benchmarks
    (supabase : option database) (selected_ids : list string)
  : outcome (option baseline) :=
  match supabase with
  | None => quiet None
  | Some db =>
      let comp_df :=
        filter (fun r => (comp_year r =? 2025)%Z
                         && mem_string (comp_employee_id r) selected_ids)
               (competencies_yearly db) in
      match comp_df with
      | [] => st_error "❌ No competency data" None
      | _ =>
          let baseline_comp := groupby_pillar_mean_std comp_df in
          let psych_df :=
            filter (fun r => mem_string (psych_employee_id r) selected_ids)
                   (fetch_psych db) in
          let baseline_psych :=
            match psych_df with
            | _ :: _ =>
                [ psych_stat "PAULI" (map pauli psych_df);
                  psych_stat "GTQ" (map gtq psych_df);
                  psych_stat "IQ" (map iq psych_df) ]
            | [] => fallback_psych
            end in
          quiet (Some {| competencies := baseline_comp;
                         psychometric := baseline_psych |})
      end
  end.

(* ------------------------------------------------------------------ *)
(** ** The match scorer *)

(** [np.array([v])], transformed, then [[0]]. *)
Definition tv_match_scalar (v baseline_mean baseline_std : num) : num :=
  nth 0 (calculate_tv_match_vectorized [v] baseline_mean baseline_std) NaN.

(** The competency loop of one employee: the list [comp_scores]. *)
Definition comp_scores_of
    (comp_df : list competency_row) (b : baseline) (emp_id : string) : list num :=
  let emp_comp := filter (fun r => String.eqb (comp_employee_id r) emp_id) comp_df in
  fold_left
    (fun comp_scores row =>
       let pillar_data :=
         filter (fun r => String.eqb (comp_pillar_code r) (dim row)) emp_comp in
       match pillar_data with
       | [] => comp_scores
       | first :: _ =>
           let candidate_score := comp_score first in
           comp_scores ++ [tv_match_scalar candidate_score (stat_mean row) (stat_std row)]
       end)
    (competencies b) [].

(** [round(np.mean(comp_scores), 2) if comp_scores else 0] *)
Definition comp_score_of
    (comp_df : list competency_row) (b : baseline) (emp_id : string) : num :=
  match comp_scores_of comp_df b emp_id with
  | [] => Fin 0
  | comp_scores => round2 (Num.mean comp_scores)
  end.

(** [str.upper] on ASCII letters. *)
Definition upper_ascii (c : Ascii.ascii) : Ascii.ascii :=
  let n := Ascii.nat_of_ascii c in
  if (97 <=? n)%nat && (n <=? 122)%nat then Ascii.ascii_of_nat (n - 32) else c.

Fixpoint upper (s : string) : string :=
  match s with
  | EmptyString => EmptyString
  | String c t => String (upper_ascii c) (upper t)
  end.

(** [weights = {'pauli': 0.60, 'gtq': 0.28, 'iq': 0.12}], in insertion order. *)
Definition weights : list (string * Q) :=
  [ ("pauli", 0.60); ("gtq", 0.28); ("iq", 0.12) ]%string.

(** [emp_psych[var]] for a score column; [None] when [var] is none of them. *)
Definition psych_get (r : psych_row) (var : string) : option num :=
  if String.eqb var "pauli" then Some (pauli r)
  else if String.eqb var "gtq" then Some (gtq r)
  else if String.eqb var "iq" then Some (iq r)
  else None.

(** [frame.loc[label]] on a frame with a unique index. *)
Definition loc (frame : list stat_row) (label : string) : option stat_row :=
  find (fun row => String.eqb (dim row) label) frame.

(** One iteration of the loop over [weights.items()]. *)
Definition psych_step (emp_psych : psych_row) (b : baseline)
    (psych_scores : list num) (vw : string * Q) : list num :=
  let '(var, weight) := vw in
  match psych_get emp_psych var, loc (psychometric b) (upper var) with
  | Some val, Some row =>
      if negb (isna val) then
        psych_scores
          ++ [Num.mul (tv_match_scalar val (stat_mean row) (stat_std row)) (Fin weight)]
      else psych_scores
  | _, _ => psych_scores
  end.

(** The psychometric loop: the list [psych_scores]. *)
Definition psych_scores_of (emp_psych : psych_row) (b : baseline) : list num :=
  fold_left (psych_step emp_psych b) weights [].

Definition psych_score_of
    (psych_df : list psych_row) (b : baseline) (emp_id : string) : num :=
  match psych_df with
  | [] => Fin 0
  | _ :: _ =>
      match filter (fun r => String.eqb (psych_employee_id r) emp_id) psych_df with
      | [] => Fin 0
      | emp_psych :: _ =>
          match psych_scores_of emp_psych b with
          | [] => Fin 0
          | psych_scores => round2 (Num.sum psych_scores)
          end
      end
  end.

Definition behav_score : num := Fin 75.
Definition context_score : num := Fin 75.

(** [comp_score * 0.50 + psych_score * 0.25 + behav_score * 0.20 + context_score * 0.05] *)
Definition final_score_of (comp_score psych_score : num) : num :=
  Num.add
    (Num.add
       (Num.add (Num.mul comp_score (Fin 0.50)) (Num.mul psych_score (Fin 0.25)))
       (Num.mul behav_score (Fin 0.20)))
    (Num.mul context_score (Fin 0.05)).

(** The body of the loop over [all_emp_ids]: the dictionary appended for
    one employee. *)
Definition score_employee
    (comp_df : list competency_row) (psych_df : list psych_row)
    (b : baseline) (emp_id : string) : match_result :=
  let comp_score := comp_score_of comp_df b emp_id in
  let psych_score := psych_score_of psych_df b emp_id in
  let final_score := final_score_of comp_score psych_score in
  {| employee_id := emp_id;
     competency_score := comp_score;
     psychometric_score := psych_score;
     behavioral_score := behav_score;
     contextual_score := context_score;
     final_match_score := round2 final_score |}.

(** Order of two final scores as a sort sees it; NaN compares with nothing. *)
Definition num_ge (a b : num) : Prop :=
  match a, b with
  | Fin x, Fin y => y <= x
  | _, _ => False
  end.

Definition final_ge (r1 r2 : match_result) : Prop :=
  num_ge (final_match_score r1) (final_match_score r2).

Definition final_isna (r : match_result) : bool := isna (final_match_score r).

(** [DataFrame.sort_values('final_match_score', ascending=False)] is a
    pandas call, left at its defaults ([kind='quicksort'],
    [na_position='last']).  It is taken as a parameter with the contract
    pandas documents for these defaults: the rows with a defined key come
    first, rearranged into non-increasing key order, and the rows with a
    NaN key follow in their original order.  The default sort kind makes
    no promise about rows with equal keys. *)
Class SortValues := {
  sort_values : list match_result -> list match_result;
  sort_values_spec :
    forall rows,
      exists ranked,
        sort_values rows = ranked ++ filter final_isna rows
        /\ Permutation ranked (filter (fun r => negb (final_isna r)) rows)
        /\ Sorted final_ge ranked
}.

(** [all_emp_ids]: the roster of the scoring year, in table order. *)
Definition all_emp_ids_of (db : database) (year : Z) : list string :=
  map perf_employee_id
      (filter (fun p => (perf_year p =? year)%Z) (performance_yearly db)).

(** [comp_df] of the scorer: every competency record of the scoring year. *)
Definition comp_df_of (db : database) (year : Z) : list competency_row :=
  filter (fun r => (comp_year r =? year)%Z) (competencies_yearly db).

(** [compute_match_scores_optimized]: the reported errors and the returned
    frame (its rows in order; [[]] is the empty [pd.DataFrame()]).
    An empty [comp_df] has no columns, so [comp_df['employee_id']] raises
    [KeyError] in the first iteration and the outer handler reports it. *)
Definition compute_match_scores_optimized {S : SortValues}
    (supabase : option database) (b : baseline) (year : Z)
  : outcome (list match_result) :=
  match supabase with
  | None => quiet []
  | Some db =>
      let all_emp_ids := all_emp_ids_of db year in
      match all_emp_ids with
      | [] => st_error "❌ No employees found" []
      | _ :: _ =>
          let comp_df := comp_df_of db year in
          let psych_df := fetch_psych db in
          match comp_df with
          | [] => st_error "❌ Error: 'employee_id'" []
          | _ :: _ =>
              let results := map (score_employee comp_df psych_df b) all_emp_ids in
              quiet (sort_values results)
          end
      end
  end.

(* ------------------------------------------------------------------ *)
(** ** Two sorts that meet the contract *)

(** Insertion into a list in non-increasing key order; [before r h] decides
    whether the new row [r] is placed in front of [h]. *)
Fixpoint insert_row (before : match_result -> match_result -> bool)
    (r : match_result) (l : list match_result) : list match_result :=
  match l with
  | [] => [r]
  | h :: t => if before r h then r :: l else h :: insert_row before r t
  end.

Definition sort_rows (before : match_result -> match_result -> bool)
    (rows : list match_result) : list match_result :=
  fold_right (insert_row before) [] (filter (fun r => negb (final_isna r)) rows)
  ++ filter final_isna rows.

Definition num_leb (a b : num) : bool :=
  match a, b with
  | Fin x, Fin y => Qle_bool x y
  | _, _ => false
  end.

(** A row goes in front of the rows it ties with: equal keys keep their
    input order (a stable sort). *)
Definition before_ties (r h : match_result) : bool :=
  num_leb (final_match_score h) (final_match_score r).

(** A row goes behind the rows it ties with: equal keys come out in
    reverse input order. *)
Definition after_ties (r h : match_result) : bool :=
  negb (num_leb (final_match_score r) (final_match_score h)).

(** Both insertions build a list that meets the contract. *)
Section InsertionSort.

Variable before : match_result -> match_result -> bool.
Hypothesis before_true :
  forall r h, final_isna r = false -> final_isna h = false ->
              before r h = true -> final_ge r h.
Hypothesis before_false :
  forall r h, final_isna r = false -> final_isna h = false ->
              before r h = false -> final_ge h r.

Lemma insert_row_perm r l : Permutation (insert_row before r l) (r :: l).
Proof.
  induction l as [|h t IH]; simpl.
  - apply Permutation_refl.
  - destruct (before r h).
    + apply Permutation_refl.
    + apply perm_trans with (h :: r :: t).
      * apply perm_skip. exact IH.
      * apply perm_swap.
Qed.

Lemma insert_row_hd h r t :
  HdRel final_ge h t -> final_ge h r -> HdRel final_ge h (insert_row before r t).
Proof.
  intros Ht Hr. destruct t as [|h' t']; simpl.
  - constructor. exact Hr.
  - destruct (before r h'); constructor.
    + exact Hr.
    + inversion Ht; assumption.
Qed.

Lemma insert_row_sorted r l :
  final_isna r = false ->
  Forall (fun x => final_isna x = false) l ->
  Sorted final_ge l -> Sorted final_ge (insert_row before r l).
Proof.
  intros Hr. induction l as [|h t IH]; intros Hl Hs; simpl.
  - repeat constructor.
  - inversion Hl as [|? ? Hh Ht]; subst.
    inversion Hs as [|? ? Hst Hhd]; subst.
    destruct (before r h) eqn:E.
    + constructor; [exact Hs|]. constructor.
      apply before_true; assumption.
    + constructor.
      * apply IH; assumption.
      * apply insert_row_hd; [exact Hhd|].
        apply before_false; assumption.
Qed.

Lemma insertion_sort_spec l :
  Forall (fun x => final_isna x = false) l ->
  Permutation (fold_right (insert_row before) [] l) l
  /\ Sorted final_ge (fold_right (insert_row before) [] l)
  /\ Forall (fun x => final_isna x = false) (fold_right (insert_row before) [] l).
Proof.
  induction l as [|r t IH]; intros Hl; simpl.
  - repeat split; constructor.
  - inversion Hl as [|? ? Hr Ht]; subst.
    destruct (IH Ht) as [P [Srt D]].
    assert (P' : Permutation (insert_row before r (fold_right (insert_row before) [] t))
                             (r :: t)).
    { eapply perm_trans; [apply insert_row_perm|]. apply perm_skip. exact P. }
    repeat split.
    + exact P'.
    + apply insert_row_sorted; assumption.
    + eapply Permutation_Forall; [apply Permutation_sym; exact P'|].
      constructor; assumption.
Qed.

Lemma sort_rows_spec rows :
  exists ranked,
    sort_rows before rows = ranked ++ filter final_isna rows
    /\ Permutation ranked (filter (fun r => negb (final_isna r)) rows)
    /\ Sorted final_ge ranked.
Proof.
  exists (fold_right (insert_row before) []
                     (filter (fun r => negb (final_isna r)) rows)).
  destruct (insertion_sort_spec (filter (fun r => negb (final_isna r)) rows))
    as [P [Srt _]].
  - apply Forall_forall. intros x Hx. apply filter_In in Hx.
    destruct Hx as [_ Hx]. apply negb_true_iff. exact Hx.
  - repeat split; assumption.
Qed.

End InsertionSort.

Lemma num_leb_true a b : num_leb a b = true -> num_ge b a.
Proof.
  destruct a as [|x], b as [|y]; simpl; try discriminate.
  intros H. apply Qle_bool_iff. exact H.
Qed.

Lemma num_leb_false a b :
  isna a = false -> isna b = false -> num_leb a b = false -> num_ge a b.
Proof.
  destruct a as [|x], b as [|y]; simpl; try discriminate.
  intros _ _ H. destruct (Qlt_le_dec y x) as [L|L].
  - apply Qlt_le_weak. exact L.
  - apply Qle_bool_iff in L. congruence.
Qed.

(** A stable sort: [kind='stable'] would behave like this one. *)
Definition stable_sort : SortValues.
Proof.
  refine {| sort_values := sort_rows before_ties |}.
  apply sort_rows_spec; unfold before_ties, final_ge, final_isna.
  - intros r h _ _ H. apply num_leb_true. exact H.
  - intros r h Hr Hh H. apply num_leb_false; assumption.
Defined.

(** A sort that is not stable, and still within the contract. *)
Definition reversing_sort : SortValues.
Proof.
  refine {| sort_values := sort_rows after_ties |}.
  apply sort_rows_spec; unfold after_ties, final_ge, final_isna.
  - intros r h Hr Hh H. apply negb_true_iff in H.
    apply num_leb_false; assumption.
  - intros r h _ _ H. apply negb_false_iff in H.
    apply num_leb_true. exact H.
Defined.

(* ------------------------------------------------------------------ *)
(** ** Order of the returned frame *)

(** The rows of the frame with final score [q], in frame order. *)
Definition rows_scoring (q : Q) (rows : list match_result) : list match_result :=
  filter (fun r => match final_match_score r with
                   | Fin x => Qeq_bool x q
                   | NaN => false
                   end) rows.

(** Ties keep their input order: for every score, the rows holding it
    appear in the output in the order they had in the input. *)
Definition ties_in_input_order (input output : list match_result) : Prop :=
  forall q, rows_scoring q output = rows_scoring q input.

(* ------------------------------------------------------------------ *)
(** ** The sub-scores as the specification words them *)

(** The employee's score for a pillar: the first record found. *)
Definition employee_pillar_score
    (comp_df : list competency_row) (emp_id pillar : string) : option num :=
  option_map comp_score
    (find (fun r => String.eqb (comp_employee_id r) emp_id
                    && String.eqb (comp_pillar_code r) pillar) comp_df).

(** The per-pillar matches over exactly the baseline pillars the employee
    has a score for. *)
Definition pillar_matches
    (comp_df : list competency_row) (b : baseline) (emp_id : string) : list num :=
  flat_map
    (fun row =>
       match employee_pillar_score comp_df emp_id (dim row) with
       | Some v => [tv_match_scalar v (stat_mean row) (stat_std row)]
       | None => []
       end)
    (competencies b).

(** Unweighted mean, rounded to 2 decimals; 0 without any match. *)
Definition competency_score_spec
    (comp_df : list competency_row) (b : baseline) (emp_id : string) : num :=
  match pillar_matches comp_df b emp_id with
  | [] => Fin 0
  | ms => round2 (Num.div (Num.sum ms) (Fin (inject_Z (Z.of_nat (List.length ms)))))
  end.

(** The weighted match of one psychometric dimension, or nothing when the
    employee's value is NaN. *)
Definition weighted_match (val : num) (row : stat_row) (weight : Q) : list num :=
  if isna val then []
  else [Num.mul (tv_match_scalar val (stat_mean row) (stat_std row)) (Fin weight)].

(** Sum of the weighted matches of pauli, gtq and iq with the fixed weights
    0.60, 0.28, 0.12, rounded to 2 decimals. *)
Definition psychometric_score_spec
    (r : psych_row) (b_pauli b_gtq b_iq : stat_row) : num :=
  match weighted_match (pauli r) b_pauli 0.60
        ++ weighted_match (gtq r) b_gtq 0.28
        ++ weighted_match (iq r) b_iq 0.12 with
  | [] => Fin 0
  | ws => round2 (Num.sum ws)
  end.

(** The baseline statistics as the specification words them: mean and
    sample standard deviation ([ddof = 1]), each rounded to 2 decimals. *)
Definition sample_mean (xs : list Q) : Q := Qsum xs / Qlen xs.

Definition sample_variance (xs : list Q) : Q :=
  Qsum (map (fun x => (x - sample_mean xs) * (x - sample_mean xs)) xs)
  / (Qlen xs - 1).

(** [m] is a number of hundredths within half a hundredth of [x]. *)
Definition rounds_to_2dp (x m : Q) : Prop :=
  Qden m = 100%positive /\ x - (1 # 200) <= m <= x + (1 # 200).

(** [s] is a number of hundredths within half a hundredth of the square
    root of [v]: [s >= 0] and [v] lies between the squares of
    [s - 0.005] and [s + 0.005]. *)
Definition sqrt_rounds_to_2dp (v s : Q) : Prop :=
  Qden s = 100%positive
  /\ 0 <= s
  /\ v <= (s + (1 # 200)) * (s + (1 # 200))
  /\ (0 < s -> (s - (1 # 200)) * (s - (1 # 200)) <= v).

(** The benchmark set of the worked example: two employees, pillar P1,
    scores 80 and 90. *)
Definition two_benchmarks_db : database := {|
  performance_yearly :=
    [ {| perf_employee_id := "e1"; perf_year := 2025; perf_rating := 5 |};
      {| perf_employee_id := "e2"; perf_year := 2025; perf_rating := 5 |} ];
  competencies_yearly :=
    [ {| comp_employee_id := "e1"; comp_pillar_code := "P1";
         comp_score := Fin 80; comp_year := 2025 |};
      {| comp_employee_id := "e2"; comp_pillar_code := "P1";
         comp_score := Fin 90; comp_year := 2025 |} ];
  profiles_psych := Some []
|}.

(** A baseline and a population used in the worked examples: A and B
    match pillar P1 exactly (and tie), C is off by 35 and has a
    psychometric record without a gtq value, D is in the roster only, E
    belongs to another year. *)
Definition example_baseline : baseline := {|
  competencies :=
    [ {| dim := "P1"; stat_mean := Fin 85.00; stat_std := Fin 7.07 |};
      {| dim := "P2"; stat_mean := Fin 70.00; stat_std := Fin 5.00 |} ];
  psychometric :=
    [ {| dim := "PAULI"; stat_mean := Fin 50; stat_std := Fin 10 |};
      {| dim := "GTQ"; stat_mean := Fin 20; stat_std := Fin 4 |};
      {| dim := "IQ"; stat_mean := Fin 100; stat_std := Fin 15 |} ]
|}.

Definition example_db : database := {|
  performance_yearly :=
    [ {| perf_employee_id := "A"; perf_year := 2025; perf_rating := 5 |};
      {| perf_employee_id := "B"; perf_year := 2025; perf_rating := 4 |};
      {| perf_employee_id := "C"; perf_year := 2025; perf_rating := 3 |};
      {| perf_employee_id := "D"; perf_year := 2025; perf_rating := 3 |};
      {| perf_employee_id := "E"; perf_year := 2024; perf_rating := 5 |} ];
  competencies_yearly :=
    [ {| comp_employee_id := "A"; comp_pillar_code := "P1";
         comp_score := Fin 85; comp_year := 2025 |};
      {| comp_employee_id := "B"; comp_pillar_code := "P1";
         comp_score := Fin 85; comp_year := 2025 |};
      {| comp_employee_id := "C"; comp_pillar_code := "P1";
         comp_score := Fin 120; comp_year := 2025 |};
      {| comp_employee_id := "E"; comp_pillar_code := "P1";
         comp_score := Fin 60; comp_year := 2024 |} ];
  profiles_psych :=
    Some [ {| psych_employee_id := "C"; pauli := Fin 50; gtq := NaN; iq := Fin 115 |} ]
|}.

(** A population in which the competency score of N1 is null. *)
Definition null_score_db : database := {|
  performance_yearly :=
    [ {| perf_employee_id := "N1"; perf_year := 2025; perf_rating := 3 |};
      {| perf_employee_id := "N2"; perf_year := 2025; perf_rating := 3 |} ];
  competencies_yearly :=
    [ {| comp_employee_id := "N1"; comp_pillar_code := "P1";
         comp_score := NaN; comp_year := 2025 |} ];
  profiles_psych := Some []
|}.

(** A roster for 2025 and no competency record at all. *)
Definition no_competency_db : database := {|
  performance_yearly :=
    [ {| perf_employee_id := "A"; perf_year := 2025; perf_rating := 4 |} ];
  competencies_yearly := [];
  profiles_psych := Some []
|}.

(* ------------------------------------------------------------------ *)
(** ** Binary64 re-evaluation of the worked examples *)

Module Binary64.

(** The final-score expression on IEEE binary64, in Python's evaluation
    order. *)
Definition final_score (comp_score psych_score : PrimFloat.float) : PrimFloat.float :=
  (comp_score * 0.50 + psych_score * 0.25 + 75 * 0.20 + 75 * 0.05)%float.

(** The transform on one binary64 candidate, below the guard. *)
Definition tv_match (v baseline_mean baseline_std : PrimFloat.float) : PrimFloat.float :=
  let distance := (PrimFloat.abs (v - baseline_mean) / baseline_std * 10)%float in
  let m := (100 - distance)%float in
  if PrimFloat.ltb m 0%float then 0%float else m.

(** The sample standard deviation of two values, before [.round(2)]. *)
Definition std2 (x y : PrimFloat.float) : PrimFloat.float :=
  let m := ((x + y) / 2)%float in
  PrimFloat.sqrt (((x - m) * (x - m) + (y - m) * (y - m)) / (2 - 1))%float.

End Binary64.

(** A benchmark set without spread: both employees score 80 on P1. *)
Definition flat_benchmarks_db : database := {|
  performance_yearly :=
    [ {| perf_employee_id := "e1"; perf_year := 2025; perf_rating := 5 |};
      {| perf_employee_id := "e2"; perf_year := 2025; perf_rating := 5 |} ];
  competencies_yearly :=
    [ {| comp_employee_id := "e1"; comp_pillar_code := "P1";
         comp_score := Fin 80; comp_year := 2025 |};
      {| comp_employee_id := "e2"; comp_pillar_code := "P1";
         comp_score := Fin 80; comp_year := 2025 |} ];
  profiles_psych := Some []
|}.

(** The weight carried by the psychometric dimensions of a record that
    have a value. *)
Definition defined_weight (r : psych_row) : Q :=
  (if isna (pauli r) then 0 else 0.60)
  + (if isna (gtq r) then 0 else 0.28)
  + (if isna (iq r) then 0 else 0.12).

(* ------------------------------------------------------------------ *)
(** ** The application around the scoring core *)

(** [employees] *)
Record employee_row := {
  emp_employee_id : string;
  fullname : string
}.

(** The client with all four tables. *)
Record client := {
  tables : database;
  employees : list employee_row
}.

(** [get_high_performers]: the employees with a rating of 5 in 2025.  The
    [st.cache_data] decorator only memoises the call and is left out. *)
Definition get_high_performers (supabase : option client)
  : outcome (list employee_row) :=
  match supabase with
  | None => quiet []
  | Some c =>
      let emp_ids :=
        map perf_employee_id
            (filter (fun p => (perf_year p =? 2025)%Z && (perf_rating p =? 5)%Z)
                    (performance_yearly (tables c))) in
      match emp_ids with
      | [] => st_error "❌ No high performers found" []
      | _ :: _ =>
          quiet (filter (fun e => mem_string (emp_employee_id e) emp_ids)
                        (employees c))
      end
  end.

(** [f"{x['employee_id']} - {x['fullname']}"] *)
Definition option_label (e : employee_row) : string :=
  (emp_employee_id e ++ " - " ++ fullname e)%string.

(** [benchmark_options] *)
Definition benchmark_options (high_performers : list employee_row) : list string :=
  map option_label high_performers.

(** [s.split(sep)[0]] for a non-empty separator: the text in front of the
    first occurrence of [sep], the whole of [s] when there is none. *)
Fixpoint split_head (sep s : string) : string :=
  if String.prefix sep s then EmptyString
  else match s with
       | EmptyString => EmptyString
       | String c t => String c (split_head sep t)
       end.

(** [selected_ids = [opt.split(' - ')[0] for opt in selected_benchmarks]] *)
Definition selected_ids_of (selected_benchmarks : list string) : list string :=
  map (split_head " - ") selected_benchmarks.

Fixpoint has_space (s : string) : bool :=
  match s with
  | EmptyString => false
  | String c t => Ascii.eqb c (Ascii.ascii_of_nat 32) || has_space t
  end.

(** The labels [get_category] returns. *)
Inductive category : Type :=
| Excellent
| Good
| Moderate
| Low.

Definition category_label (c : category) : string :=
  match c with
  | Excellent => "🟢 Excellent"
  | Good => "🟡 Good"
  | Moderate => "🟠 Moderate"
  | Low => "🔴 Low"
  end.

(** [score >= threshold]; false on NaN. *)
Definition score_geb (score : num) (threshold : Q) : bool :=
  match score with
  | NaN => false
  | Fin x => Qle_bool threshold x
  end.

(** [get_category] *)
Definition get_category (score : num) : category :=
  if score_geb score 80 then Excellent
  else if score_geb score 60 then Good
  else if score_geb score 40 then Moderate
  else Low.

(** Position of a category, best first. *)
Definition category_rank (c : category) : nat :=
  match c with
  | Excellent => 0
  | Good => 1
  | Moderate => 2
  | Low => 3
  end.

(** Rows by category, best first. *)
Definition category_before (r1 r2 : match_result) : Prop :=
  (category_rank (get_category (final_match_score r1))
   <= category_rank (get_category (final_match_score r2)))%nat.

(** One row of [ranked_talent]: the score columns, the name when the merge
    found one, and the category. *)
Record talent_row := {
  scored : match_result;
  talent_fullname : option string;
  talent_category : category
}.

(** [match_scores.merge(emp_names, on='employee_id', how='left')]: the rows
    of [match_scores] in their order, each once per employee row with the
    same id, or once without a name when there is none. *)
Definition merge_names (match_scores : list match_result)
    (emp_names : list employee_row) : list (match_result * option string) :=
  flat_map
    (fun r =>
       match filter (fun e => String.eqb (emp_employee_id e) (employee_id r))
                    emp_names with
       | [] => [(r, None)]
       | es => map (fun e => (r, Some (fullname e))) es
       end)
    match_scores.

(** [ranked_talent] with its category column.  An empty [employees] reply
    gives a frame without columns, the merge raises, and the handler
    continues with [match_scores] alone. *)
Definition ranked_talent_of (match_scores : list match_result)
    (emp_names : list employee_row) : list talent_row :=
  let merged :=
    match emp_names with
    | [] => map (fun r => (r, None)) match_scores
    | _ :: _ => merge_names match_scores emp_names
    end in
  map (fun rn => {| scored := fst rn;
                    talent_fullname := snd rn;
                    talent_category := get_category (final_match_score (fst rn)) |})
      merged.

(** [len(match_scores[match_scores['final_match_score'] >= 80])] *)
Definition excellent_count (match_scores : list match_result) : nat :=
  List.length (filter (fun r => score_geb (final_match_score r) 80) match_scores).

(** How a run of [main] ends, with the data it displays. *)
Inductive main_result : Type :=
| CannotLoad
| Idle
| TooFewBenchmarks
| NoBaseline
| NoScores
| Complete (b : baseline) (match_scores : list match_result)
           (ranked_talent : list talent_row).

(** The data path of [main]: the inputs are the client, the state of the
    button and the labels chosen in the multiselect.  The job profile
    generated between the two computations does not enter them and is
    modelled on its own below. *)
Definition main {S : SortValues} (supabase : option client)
    (run_analysis : bool) (selected_benchmarks : list string)
  : outcome main_result :=
  let hp := get_high_performers supabase in
  match returned hp with
  | [] => {| reported := reported hp ++ ["Cannot load employees"%string];
             returned := CannotLoad |}
  | _ :: _ =>
      let selected_ids := selected_ids_of selected_benchmarks in
      if run_analysis && (2 <=? List.length selected_ids)%nat then
        let bo := compute_baseline_from_benchmarks (option_map tables supabase)
                                                   selected_ids in
        match returned bo with
        | None => {| reported := reported hp ++ reported bo; returned := NoBaseline |}
        | Some baseline =>
            let mo := compute_match_scores_optimized (option_map tables supabase)
                                                     baseline 2025 in
            match returned mo with
            | [] => {| reported := reported hp ++ reported bo ++ reported mo;
                       returned := NoScores |}
            | match_scores =>
                {| reported := reported hp ++ reported bo ++ reported mo;
                   returned :=
                     Complete baseline match_scores
                       (ranked_talent_of match_scores
                          (match supabase with
                           | Some c => employees c
                           | None => []
                           end)) |}
            end
        end
      else if run_analysis then
        {| reported := reported hp; returned := TooFewBenchmarks |}
      else {| reported := reported hp; returned := Idle |}
  end.

(** A client for the worked examples: the two benchmark employees with
    their names. *)
Definition example_client : client := {|
  tables := two_benchmarks_db;
  employees :=
    [ {| emp_employee_id := "e1"; fullname := "Eka" |};
      {| emp_employee_id := "e2"; fullname := "Dwi" |} ]
|}.

(* ------------------------------------------------------------------ *)
(** ** The generated job profile *)

(** The three texts of a profile. *)
Record job_profile := {
  job_requirements : string;
  job_description : string;
  key_competencies : string
}.

(** ["\n"] *)
Definition nl : string := String (Ascii.ascii_of_nat 10) EmptyString.

(** [get_fallback_profile] *)
Definition get_fallback_profile (role_name job_level : string) : job_profile :=
  {| job_requirements :=
       ("• 3+ years experience at " ++ job_level ++ " level" ++ nl
        ++ "• Strong analytical skills" ++ nl
        ++ "• Data analysis tools proficiency" ++ nl
        ++ "• Communication skills")%string;
     job_description :=
       ("• Analyze data and trends" ++ nl
        ++ "• Develop insights and recommendations" ++ nl
        ++ "• Create reports and dashboards" ++ nl
        ++ "• Collaborate with stakeholders")%string;
     key_competencies :=
       ("• Analytical thinking" ++ nl ++ "• Problem-solving" ++ nl
        ++ "• Communication" ++ nl ++ "• Teamwork" ++ nl
        ++ "• Attention to detail")%string |}.

(** ['{'] and ['}'] *)
Definition brace_open : Ascii.ascii := Ascii.ascii_of_nat 123.
Definition brace_close : Ascii.ascii := Ascii.ascii_of_nat 125.

(** Position of the first [c] in [s]. *)
Fixpoint find_char (c : Ascii.ascii) (s : string) : option nat :=
  match s with
  | EmptyString => None
  | String a t =>
      if Ascii.eqb a c then Some 0%nat else option_map Datatypes.S (find_char c t)
  end.

(** Position of the last [c] in [s]. *)
Fixpoint rfind_char (c : Ascii.ascii) (s : string) : option nat :=
  match s with
  | EmptyString => None
  | String a t =>
      match rfind_char c t with
      | Some i => Some (Datatypes.S i)
      | None => if Ascii.eqb a c then Some 0%nat else None
      end
  end.

(** [str.find] / [str.rfind] of one character: the position, or -1. *)
Definition py_position (o : option nat) : Z :=
  match o with
  | Some i => Z.of_nat i
  | None => (-1)%Z
  end.

(** [s[start:stop]] for [0 <= start <= stop <= len(s)]. *)
Definition slice (s : string) (start stop : Z) : string :=
  String.substring (Z.to_nat start) (Z.to_nat (stop - start)) s.

(** What the HTTP exchange came to. *)
Inductive http_reply : Type :=
| TimedOut
| Broke
| Answered (status_code : Z) (content : option string).

(** The [st.warning] messages of the function. *)
Inductive profile_warning : Type :=
| NotConfigured
| ApiError (status_code : Z)
| ApiTimeout
| OtherError.

Section JobProfile.

(** Parsed JSON values, and [json.loads] ([None]: it raises
    [JSONDecodeError]). *)
Variable json : Type.
Variable json_loads : string -> option json.

(** What the function returns: the parsed reply, or the fallback texts. *)
Inductive profile : Type :=
| Loaded (j : json)
| Canned (p : job_profile).

(** The handler of [json.JSONDecodeError]: a second attempt on the text
    from the first ['{'] through the last ['}']. *)
Definition profile_from_braces (content role_name job_level : string) : profile :=
  let json_start := py_position (find_char brace_open content) in
  let json_end := (py_position (rfind_char brace_close content) + 1)%Z in
  if (0 <=? json_start)%Z && (json_start <? json_end)%Z then
    match json_loads (slice content json_start json_end) with
    | Some j => Loaded j
    | None => Canned (get_fallback_profile role_name job_level)
    end
  else Canned (get_fallback_profile role_name job_level).

(** [generate_job_profile_openrouter]: the warnings shown and the profile
    returned.  The request itself is an input: [reply] is what it came to,
    with [content = None] when reading
    [result['choices'][0]['message']['content']] raises or gives no text.
    [role_purpose] and [benchmark_employees_data] only enter the prompt. *)
Definition generate_job_profile_openrouter
    (api_key : string) (reply : http_reply) (role_name job_level : string)
  : list profile_warning * profile :=
  let fallback := Canned (get_fallback_profile role_name job_level) in
  if String.eqb api_key EmptyString then ([NotConfigured], fallback)
  else
    match reply with
    | TimedOut => ([ApiTimeout], fallback)
    | Broke => ([OtherError], fallback)
    | Answered status_code content =>
        if negb (status_code =? 200)%Z then ([ApiError status_code], fallback)
        else
          match content with
          | None => ([OtherError], fallback)
          | Some content =>
              match json_loads content with
              | Some j => ([], Loaded j)
              | None => ([], profile_from_braces content role_name job_level)
              end
          end
    end.

End JobProfile.

Arguments Loaded {json} _.
Arguments Canned {json} _.

(** A stand-in for [json.loads] in the worked example: it accepts the one
    text [{ok}]. *)
Definition loads_ok_object (s : string) : option unit :=
  if String.eqb s "{ok}" then Some tt else None.

(* ================================================================== *)
(** * Properties *)

(** ** Rounding *)

Lemma rint_lower x : x - (1 # 2) <= inject_Z (rint x).
Proof.
  unfold rint.
  pose proof (Qfloor_le x) as Hl. pose proof (Qlt_floor x) as Hu.
  rewrite inject_Z_plus in Hu. change (inject_Z 1) with 1 in Hu.
  destruct (Qlt_le_dec (x - inject_Z (Qfloor x)) (1 # 2)) as [H1|H1].
  - lra.
  - destruct (Qlt_le_dec (1 # 2) (x - inject_Z (Qfloor x))) as [H2|H2].
    + rewrite inject_Z_plus. change (inject_Z 1) with 1. lra.
    + destruct (Z.even (Qfloor x));
        [|rewrite inject_Z_plus; change (inject_Z 1) with 1]; lra.
Qed.

Lemma rint_upper x : inject_Z (rint x) <= x + (1 # 2).
Proof.
  unfold rint.
  pose proof (Qfloor_le x) as Hl.
  destruct (Qlt_le_dec (x - inject_Z (Qfloor x)) (1 # 2)) as [H1|H1].
  - lra.
  - destruct (Qlt_le_dec (1 # 2) (x - inject_Z (Qfloor x))) as [H2|H2].
    + rewrite inject_Z_plus. change (inject_Z 1) with 1. lra.
    + destruct (Z.even (Qfloor x));
        [|rewrite inject_Z_plus; change (inject_Z 1) with 1]; lra.
Qed.

(** Rounding never crosses an integer: bounds that are integers survive. *)
Lemma rint_ge (a : Z) x : inject_Z a <= x -> (a <= rint x)%Z.
Proof.
  intros H. unfold rint.
  assert (Hf : (a <= Qfloor x)%Z).
  { rewrite <- (Qfloor_Z a). apply Qfloor_resp_le. exact H. }
  destruct (Qlt_le_dec _ _); [lia|].
  destruct (Qlt_le_dec _ _); [lia|].
  destruct (Z.even _); lia.
Qed.

Lemma rint_le (b : Z) x : x <= inject_Z b -> (rint x <= b)%Z.
Proof.
  intros H.
  pose proof (Qfloor_le x) as Hl.
  assert (Hf : (Qfloor x <= b)%Z).
  { rewrite <- (Qfloor_Z b). apply Qfloor_resp_le. exact H. }
  unfold rint.
  destruct (Qlt_le_dec _ _) as [H1|H1]; [lia|].
  assert (Hne : Qfloor x <> b).
  { intros E. rewrite E in H1. lra. }
  destruct (Qlt_le_dec _ _); [lia|].
  destruct (Z.even _); lia.
Qed.

Lemma hundredths (n : Z) : n # 100 == inject_Z n * (1 # 100).
Proof. unfold Qeq, Qmult, inject_Z. simpl. lia. Qed.

(** [round(x, 2)] is within half a hundredth of [x]. *)
Lemma Qround2_close x : x - (1 # 200) <= Qround2 x <= x + (1 # 200).
Proof.
  unfold Qround2. rewrite hundredths.
  pose proof (rint_lower (x * 100)). pose proof (rint_upper (x * 100)).
  split; lra.
Qed.

(** A range whose ends are hundredths is closed under [round(x, 2)]. *)
Lemma Qround2_range (a b : Z) x :
  a # 100 <= x <= b # 100 -> a # 100 <= Qround2 x <= b # 100.
Proof.
  intros [Ha Hb]. unfold Qround2.
  rewrite hundredths in Ha. rewrite hundredths in Hb.
  assert (Ha' : inject_Z a <= x * 100) by lra.
  assert (Hb' : x * 100 <= inject_Z b) by lra.
  apply rint_ge in Ha'. apply rint_le in Hb'.
  unfold Qle; simpl. lia.
Qed.

(** ** The transform *)

Lemma Qeq_bool_false_of_pos s : 0 < s -> Qeq_bool s 0 = false.
Proof.
  intros Hs. destruct (Qeq_bool s 0) eqn:E; [|reflexivity].
  apply Qeq_bool_eq in E. lra.
Qed.

Section Transform.

Variables mu sigma : Q.
Hypothesis sigma_pos : 0 < sigma.

(** The distance [|v - mu| / sigma * 10] is never negative. *)
Lemma distance_nonneg v : 0 <= Qabs (v - mu) / sigma * 10.
Proof.
  apply Qmult_le_0_compat; [|lra].
  apply Qle_shift_div_l; [exact sigma_pos|].
  rewrite Qmult_0_l. apply Qabs_nonneg.
Qed.

Lemma distance_zero_iff v : Qabs (v - mu) / sigma * 10 == 0 <-> v == mu.
Proof.
  split.
  - intros H.
    assert (Ha : Qabs (v - mu) == 0).
    { assert (E : Qabs (v - mu) == Qabs (v - mu) / sigma * 10 * (sigma / 10)).
      { field. lra. }
      rewrite E, H. ring. }
    revert Ha. apply Qabs_case; intros; lra.
  - intros H. rewrite H.
    setoid_replace (mu - mu) with 0 by ring.
    simpl. field. lra.
Qed.

(** Below the guard the transform is the closed formula, and stays a number. *)
Lemma tv_match_scalar_defined v :
  tv_match_scalar (Fin v) (Fin mu) (Fin sigma)
  = Fin (Qmax 0 (100 - Qabs (v - mu) / sigma * 10)).
Proof.
  unfold tv_match_scalar, calculate_tv_match_vectorized. simpl.
  rewrite (Qeq_bool_false_of_pos _ sigma_pos). reflexivity.
Qed.

Lemma tv_match_vectorized_defined vs :
  calculate_tv_match_vectorized (map Fin vs) (Fin mu) (Fin sigma)
  = map (fun v => Fin (Qmax 0 (100 - Qabs (v - mu) / sigma * 10))) vs.
Proof.
  unfold calculate_tv_match_vectorized. simpl.
  rewrite (Qeq_bool_false_of_pos _ sigma_pos).
  rewrite !map_map. apply map_ext. intros v. simpl.
  rewrite (Qeq_bool_false_of_pos _ sigma_pos). reflexivity.
Qed.

Lemma match_formula_range v :
  0 <= Qmax 0 (100 - Qabs (v - mu) / sigma * 10) <= 100.
Proof.
  pose proof (distance_nonneg v) as Hd.
  split.
  - apply Q.le_max_l.
  - apply Q.max_lub; lra.
Qed.

(** On the rationals the ceiling 100 is reached at the mean and nowhere
    else. *)
Lemma match_formula_full_iff v :
  Qmax 0 (100 - Qabs (v - mu) / sigma * 10) == 100 <-> v == mu.
Proof.
  pose proof (distance_nonneg v) as Hd.
  rewrite <- distance_zero_iff.
  split; intros H.
  - destruct (Q.max_spec 0 (100 - Qabs (v - mu) / sigma * 10)) as [[_ E]|[_ E]];
      rewrite E in H; lra.
  - destruct (Q.max_spec 0 (100 - Qabs (v - mu) / sigma * 10)) as [[_ E]|[L E]];
      rewrite E; lra.
Qed.

(** A NaN candidate is not caught by the guard: it comes back as NaN. *)
Lemma tv_match_vectorized_nan_candidate :
  calculate_tv_match_vectorized [NaN] (Fin mu) (Fin sigma) = [NaN].
Proof.
  unfold calculate_tv_match_vectorized. simpl.
  rewrite (Qeq_bool_false_of_pos _ sigma_pos). reflexivity.
Qed.

End Transform.




(** C2: when the baseline mean or standard deviation is NaN, or the
    standard deviation is 0, the transform returns the number 0 for every
    candidate (NaN candidates included); and whenever the guard lets a call
    through to the division, the divisor is a defined non-zero number. *)
Theorem C2_guarded_baseline_gives_zero :
  forall (candidate_scores : list num) (baseline_mean baseline_std : num),
    (isna baseline_mean = true \/ isna baseline_std = true
     \/ baseline_std =n= Fin 0 ->
     calculate_tv_match_vectorized candidate_scores baseline_mean baseline_std
     = map (fun _ => Fin 0) candidate_scores)
    /\ (isna baseline_mean || isna baseline_std || is_zero baseline_std = false ->
        exists s, baseline_std = Fin s /\ ~ s == 0).
Proof.
  intros vs bm bs. split.
  - intros H. unfold calculate_tv_match_vectorized.
    assert (G : isna bm || isna bs || is_zero bs = true).
    { destruct H as [H|[H|H]].
      - rewrite H. reflexivity.
      - rewrite H. apply orb_true_iff. left. apply orb_true_r.
      - destruct bs as [|s]; simpl in H; [contradiction|].
        apply orb_true_iff. right. simpl. apply Qeq_bool_iff. exact H. }
    rewrite G. reflexivity.
  - intros G. apply orb_false_iff in G. destruct G as [G Hz].
    apply orb_false_iff in G. destruct G as [_ Hs].
    destruct bs as [|s]; [discriminate|].
    exists s. split; [reflexivity|].
    simpl in Hz. intros E. apply Qeq_bool_iff in E. congruence.
Qed.

Lemma C2_guarded_baseline_gives_zero_witness :
  calculate_tv_match_vectorized [Fin 50; NaN; Fin 120] (Fin 85) (Fin 0)
  = [Fin 0; Fin 0; Fin 0]
  /\ calculate_tv_match_vectorized [Fin 50; NaN; Fin 120] NaN (Fin 7.07)
     = [Fin 0; Fin 0; Fin 0]
  /\ calculate_tv_match_vectorized [Fin 50; NaN; Fin 120] (Fin 85) NaN
     = [Fin 0; Fin 0; Fin 0]
  /\ exists s, Fin 7.07 = Fin s /\ ~ s == 0.
Proof.
  split; [|split; [|split]].
  - apply (proj1 (C2_guarded_baseline_gives_zero
                    [Fin 50; NaN; Fin 120] (Fin 85) (Fin 0))).
    right. right. reflexivity.
  - apply (proj1 (C2_guarded_baseline_gives_zero
                    [Fin 50; NaN; Fin 120] NaN (Fin 7.07))).
    left. reflexivity.
  - apply (proj1 (C2_guarded_baseline_gives_zero
                    [Fin 50; NaN; Fin 120] (Fin 85) NaN)).
    right. left. reflexivity.
  - apply (proj2 (C2_guarded_baseline_gives_zero [] (Fin 85) (Fin 7.07))).
    reflexivity.
Defined.

(** ** The baseline builder *)

Lemma isqrt_bracket (y : Q) :
  0 <= y ->
  0 <= inject_Z (Z.sqrt (Qfloor y))
  /\ inject_Z (Z.sqrt (Qfloor y)) * inject_Z (Z.sqrt (Qfloor y)) <= y
  /\ y < (inject_Z (Z.sqrt (Qfloor y)) + 1) * (inject_Z (Z.sqrt (Qfloor y)) + 1).
Proof.
  intros Hy.
  assert (Hx : (0 <= Qfloor y)%Z).
  { change 0%Z with (Qfloor 0). apply Qfloor_resp_le. exact Hy. }
  pose proof (Z.sqrt_spec (Qfloor y) Hx) as [Hlo Hhi].
  pose proof (Z.sqrt_nonneg (Qfloor y)) as Hs.
  pose proof (Qfloor_le y) as Hl. pose proof (Qlt_floor y) as Hu.
  set (s := Z.sqrt (Qfloor y)) in *.
  split; [|split].
  - change 0 with (inject_Z 0). rewrite <- Zle_Qle. exact Hs.
  - rewrite <- inject_Z_mult. eapply Qle_trans; [|exact Hl].
    rewrite <- Zle_Qle. exact Hlo.
  - change 1 with (inject_Z 1). rewrite <- inject_Z_plus, <- inject_Z_mult.
    eapply Qlt_le_trans; [exact Hu|].
    rewrite <- Zle_Qle. unfold Z.succ in Hhi. lia.
Qed.

Lemma sqrt_round2_den v : Qden (sqrt_round2 v) = 100%positive.
Proof.
  unfold sqrt_round2.
  destruct (Z.even _); [reflexivity|].
  destruct (Qeq_bool _ _); [|reflexivity].
  destruct (Z.even _); reflexivity.
Qed.

(** [sqrt_round2 v] is the square root of [v] rounded to 2 decimals. *)
Lemma sqrt_round2_spec v : 0 <= v -> sqrt_rounds_to_2dp v (sqrt_round2 v).
Proof.
  intros Hv. split; [apply sqrt_round2_den|].
  unfold sqrt_round2.
  assert (Hy : 0 <= v * 40000) by lra.
  destruct (isqrt_bracket (v * 40000) Hy) as [H0 [Hlo Hhi]].
  set (s := Z.sqrt (Qfloor (v * 40000))) in *.
  pose proof (Z.sqrt_nonneg (Qfloor (v * 40000))) as Hs. fold s in Hs.
  pose proof (Z.div_mod s 2 ltac:(lia)) as Hdm.
  pose proof (Z.mod_pos_bound s 2 ltac:(lia)) as Hmb.
  set (k := (s / 2)%Z) in *.
  assert (Hk : (0 <= k)%Z) by (subst k; apply Z.div_pos; lia).
  assert (HkQ : 0 <= inject_Z k).
  { change 0 with (inject_Z 0). rewrite <- Zle_Qle. exact Hk. }
  assert (Hint : 0 < inject_Z k * (1 # 100) -> 1 <= inject_Z k).
  { intros Hp. change 1 with (inject_Z 1). rewrite <- Zle_Qle.
    assert (L : inject_Z 0 < inject_Z k) by (change (inject_Z 0) with 0; lra).
    rewrite <- Zlt_Qlt in L. lia. }
  destruct (Z.even s) eqn:Ev.
  - assert (Es : s = (2 * k)%Z).
    { rewrite Zeven_mod in Ev. apply Z.eqb_eq in Ev. lia. }
    assert (EQ : inject_Z s == 2 * inject_Z k).
    { rewrite Es, inject_Z_mult. reflexivity. }
    rewrite EQ in Hlo, Hhi.
    rewrite hundredths.
    split; [lra|]. split; [nra|]. intros Hp. apply Hint in Hp. nra.
  - assert (Es : s = (2 * k + 1)%Z).
    { assert (Od : Z.odd s = true) by (rewrite <- Z.negb_even, Ev; reflexivity).
      rewrite Zodd_mod in Od. apply Z.eqb_eq in Od. lia. }
    assert (EQ : inject_Z s == 2 * inject_Z k + 1).
    { rewrite Es, inject_Z_plus, inject_Z_mult. reflexivity. }
    rewrite EQ in Hlo, Hhi.
    assert (Hk1 : inject_Z (k + 1) == inject_Z k + 1).
    { rewrite inject_Z_plus. reflexivity. }
    destruct (Qeq_bool (v * 40000) (inject_Z (s * s))) eqn:Tie.
    + apply Qeq_bool_eq in Tie. rewrite inject_Z_mult, EQ in Tie.
      destruct (Z.even k); rewrite hundredths; [|rewrite Hk1];
        (split; [lra|]; split; [nra|]; intros Hp; nra).
    + rewrite hundredths, Hk1.
      split; [lra|]. split; [nra|]. intros Hp. nra.
Qed.

Lemma Qsum_squares_nonneg (m : Q) xs :
  0 <= Qsum (map (fun x => (x - m) * (x - m)) xs).
Proof.
  induction xs as [|x t IH].
  - apply Qle_refl.
  - change (0 <= (x - m) * (x - m) + Qsum (map (fun x => (x - m) * (x - m)) t)).
    assert (0 <= (x - m) * (x - m)) by (set (d := x - m); nra). lra.
Qed.

Lemma Qlen_cons x xs : Qlen (x :: xs) == Qlen xs + 1.
Proof.
  unfold Qlen. simpl List.length. rewrite Nat2Z.inj_succ.
  unfold Z.succ. rewrite inject_Z_plus. reflexivity.
Qed.

Lemma Qlen_nonneg xs : 0 <= Qlen xs.
Proof.
  unfold Qlen. change 0 with (inject_Z 0). rewrite <- Zle_Qle. lia.
Qed.

Lemma sample_variance_nonneg xs : (2 <= List.length xs)%nat -> 0 <= sample_variance xs.
Proof.
  intros Hn. unfold sample_variance.
  destruct xs as [|a [|b t]]; simpl in Hn; try lia.
  apply Qle_shift_div_l.
  - rewrite !Qlen_cons. pose proof (Qlen_nonneg t). lra.
  - rewrite Qmult_0_l. apply Qsum_squares_nonneg.
Qed.

Lemma series_mean_defined l :
  dropna l <> [] -> series_mean l = Fin (sample_mean (dropna l)).
Proof.
  unfold series_mean, sample_mean. destruct (dropna l); [congruence|reflexivity].
Qed.

Lemma series_var_defined l :
  (2 <= List.length (dropna l))%nat ->
  series_var l = Fin (sample_variance (dropna l)).
Proof.
  unfold series_var, sample_variance, sample_mean.
  destruct (dropna l) as [|a [|b t]]; simpl List.length; intros H; try lia.
  reflexivity.
Qed.

(** Group keys: exactly the pillar codes that occur. *)
Lemma insert_key_In x k l : In x (insert_key k l) <-> x = k \/ In x l.
Proof.
  induction l as [|h t IH]; simpl.
  - intuition.
  - destruct (String.compare k h) eqn:E; simpl.
    + apply String.compare_eq_iff in E. subst. intuition.
    + intuition.
    + rewrite IH. intuition.
Qed.

Lemma group_keys_In x ks : In x (group_keys ks) <-> In x ks.
Proof.
  induction ks as [|k t IH]; simpl; [reflexivity|].
  rewrite insert_key_In, IH. intuition.
Qed.

Lemma loc_map_key (mk : string -> stat_row) keys p :
  (forall k, dim (mk k) = k) ->
  In p keys -> loc (map mk keys) p = Some (mk p).
Proof.
  intros Hmk. unfold loc.
  induction keys as [|k t IH]; simpl; [contradiction|].
  intros Hin. rewrite Hmk.
  destruct (String.eqb k p) eqn:E.
  - apply String.eqb_eq in E. subst. reflexivity.
  - apply IH. destruct Hin as [->|Hin]; [|exact Hin].
    rewrite String.eqb_refl in E. discriminate.
Qed.

(** Every pillar of the benchmark records has its row in the grouped frame. *)
Lemma groupby_pillar_loc comp_df p :
  In p (map comp_pillar_code comp_df) ->
  loc (groupby_pillar_mean_std comp_df) p
  = Some {| dim := p;
            stat_mean :=
              round2 (series_mean
                        (map comp_score
                             (filter (fun r => String.eqb (comp_pillar_code r) p) comp_df)));
            stat_std :=
              series_std_round2
                (map comp_score
                     (filter (fun r => String.eqb (comp_pillar_code r) p) comp_df)) |}.
Proof.
  intros Hin. unfold groupby_pillar_mean_std.
  rewrite (loc_map_key _ _ p); [reflexivity| |].
  - intros k. reflexivity.
  - apply group_keys_In. exact Hin.
Qed.

(** The frame the builder stores under ['competencies'] whenever benchmark
    competency records exist. *)
Lemma builder_competencies db selected_ids :
  let comp_df :=
    filter (fun r => (comp_year r =? 2025)%Z
                     && mem_string (comp_employee_id r) selected_ids)
           (competencies_yearly db) in
  comp_df <> [] ->
  exists b,
    compute_baseline_from_benchmarks (Some db) selected_ids = quiet (Some b)
    /\ competencies b = groupby_pillar_mean_std comp_df.
Proof.
  intros comp_df Hne. unfold compute_baseline_from_benchmarks.
  fold comp_df. destruct comp_df as [|c0 rest] eqn:E; [congruence|].
  eexists. split; reflexivity.
Qed.

(** C3: for every pillar that occurs in the benchmark competency records,
    the stored baseline row holds the mean of the (defined) benchmark
    scores rounded to 2 decimals and their sample standard deviation
    ([ddof = 1]: squared deviations divided by [n - 1]) rounded to 2
    decimals; for the benchmark set [{e1, e2}] with P1 scores [[80, 90]]
    the stored row is mean 85.0, std 7.07. *)
Theorem C3_baseline_mean_and_sample_std :
  (forall (db : database) (selected_ids : list string) (p : string),
      let comp_df :=
        filter (fun r => (comp_year r =? 2025)%Z
                         && mem_string (comp_employee_id r) selected_ids)
               (competencies_yearly db) in
      let xs :=
        dropna (map comp_score
                    (filter (fun r => String.eqb (comp_pillar_code r) p) comp_df)) in
      In p (map comp_pillar_code comp_df) ->
      exists b row,
        compute_baseline_from_benchmarks (Some db) selected_ids = quiet (Some b)
        /\ loc (competencies b) p = Some row
        /\ dim row = p
        /\ (xs <> [] ->
            exists m, stat_mean row = Fin m /\ rounds_to_2dp (sample_mean xs) m)
        /\ ((2 <= List.length xs)%nat ->
            exists s, stat_std row = Fin s
                      /\ sqrt_rounds_to_2dp (sample_variance xs) s))
  /\ (exists b,
         compute_baseline_from_benchmarks (Some two_benchmarks_db) ["e1"; "e2"]%string
         = quiet (Some b)
         /\ competencies b
            = [ {| dim := "P1"; stat_mean := Fin 85.00; stat_std := Fin 7.07 |} ]).
Proof.
  split.
  - intros db ids p comp_df xs Hin.
    assert (Hne : comp_df <> []).
    { intros E. rewrite E in Hin. exact Hin. }
    destruct (builder_competencies db ids Hne) as [b [Hb Hc]].
    exists b. eexists. split; [exact Hb|].
    rewrite Hc. split; [apply groupby_pillar_loc; exact Hin|].
    split; [reflexivity|]. cbn [stat_mean stat_std]. fold xs. split.
    + intros Hx. exists (Qround2 (sample_mean xs)).
      unfold xs. rewrite series_mean_defined by exact Hx. split; [reflexivity|].
      split; [reflexivity|apply Qround2_close].
    + intros Hx. exists (sqrt_round2 (sample_variance xs)).
      unfold series_std_round2, xs.
      rewrite series_var_defined by exact Hx. split; [reflexivity|].
      apply sqrt_round2_spec. apply sample_variance_nonneg. exact Hx.
  - eexists. split; vm_compute; reflexivity.
Qed.

Lemma C3_baseline_mean_and_sample_std_witness :
  exists b row,
    compute_baseline_from_benchmarks (Some two_benchmarks_db) ["e1"; "e2"]%string
    = quiet (Some b)
    /\ loc (competencies b) "P1" = Some row
    /\ dim row = "P1"%string
    /\ ([80; 90] <> [] ->
        exists m, stat_mean row = Fin m /\ rounds_to_2dp (sample_mean [80; 90]) m)
    /\ ((2 <= List.length [80; 90])%nat ->
        exists s, stat_std row = Fin s
                  /\ sqrt_rounds_to_2dp (sample_variance [80; 90]) s).
Proof.
  apply (proj1 C3_baseline_mean_and_sample_std two_benchmarks_db
               ["e1"; "e2"]%string "P1"%string).
  simpl. left. reflexivity.
Defined.

(** The sample variance of [[80, 90]] is 50 (the population variance would
    be 25, giving std 5.0). *)
Example sample_variance_80_90 : sample_variance [80; 90] == 50.
Proof. vm_compute. reflexivity. Qed.

(** With a single defined benchmark score the sample deviation is
    undefined, and the stored std is NaN. *)
Lemma series_std_single x : series_std_round2 [Fin x] = NaN.
Proof. reflexivity. Qed.

(** ** The fallback psychometric baseline *)

Lemma Qmax_eq_compat a b b' : b == b' -> Qmax a b == Qmax a b'.
Proof.
  intros E.
  destruct (Q.max_spec a b) as [[L ->]|[L ->]];
    destruct (Q.max_spec a b') as [[L' ->]|[L' ->]]; lra.
Qed.

(** Against mean 0 and standard deviation 1 the transform is
    [max(0, 100 - |v| * 10)], NaN candidates propagating as in NumPy. *)
Lemma tv_match_against_fallback v :
  tv_match_scalar v (Fin 0) (Fin 1)
  =n= Num.maximum (Fin 0) (Num.sub (Fin 100) (Num.mul (Num.abs v) (Fin 10))).
Proof.
  destruct v as [|x]; [exact I|].
  rewrite (tv_match_scalar_defined 0 1) by reflexivity.
  unfold Num.maximum, Num.sub, Num.mul, Num.abs, lift2, Num.equal.
  apply Qmax_eq_compat.
  setoid_replace (x - 0) with x by ring. field.
Qed.

Lemma builder_fallback_psych db selected_ids :
  filter (fun r => (comp_year r =? 2025)%Z
                   && mem_string (comp_employee_id r) selected_ids)
         (competencies_yearly db) <> [] ->
  (forall r, In r (fetch_psych db) ->
             mem_string (psych_employee_id r) selected_ids = false) ->
  exists b,
    compute_baseline_from_benchmarks (Some db) selected_ids = quiet (Some b)
    /\ psychometric b = fallback_psych.
Proof.
  intros Hne Hnone. unfold compute_baseline_from_benchmarks.
  destruct (filter _ (competencies_yearly db)) as [|c0 rest]; [congruence|].
  assert (E : filter (fun r => mem_string (psych_employee_id r) selected_ids)
                     (fetch_psych db) = []).
  { induction (fetch_psych db) as [|r t IH]; [reflexivity|].
    simpl. rewrite (Hnone r (or_introl eq_refl)).
    apply IH. intros r' Hr'. apply Hnone. right. exact Hr'. }
  rewrite E. eexists. split; reflexivity.
Qed.



(** ** The match scorer: shape of a run *)

Lemma filter_split_perm {A} (f : A -> bool) l :
  Permutation (filter (fun x => negb (f x)) l ++ filter f l) l.
Proof.
  induction l as [|x t IH]; simpl; [constructor|].
  destruct (f x); simpl.
  - apply Permutation_sym. apply Permutation_cons_app.
    apply Permutation_sym. exact IH.
  - apply perm_skip. exact IH.
Qed.

(** Sorting rearranges the rows and loses none. *)
Lemma sort_values_perm {S : SortValues} rows : Permutation (sort_values rows) rows.
Proof.
  destruct (sort_values_spec rows) as [ranked [E [P _]]].
  rewrite E. eapply perm_trans; [|apply (filter_split_perm final_isna)].
  apply Permutation_app_tail. exact P.
Qed.

(** A run that gets past both checks returns the sorted per-employee rows. *)
Lemma scorer_success {S : SortValues} db b year :
  all_emp_ids_of db year <> [] ->
  comp_df_of db year <> [] ->
  compute_match_scores_optimized (Some db) b year
  = quiet (sort_values
             (map (score_employee (comp_df_of db year) (fetch_psych db) b)
                  (all_emp_ids_of db year))).
Proof.
  intros Hr Hc. unfold compute_match_scores_optimized.
  destruct (all_emp_ids_of db year); [congruence|].
  destruct (comp_df_of db year); [congruence|]. reflexivity.
Qed.

(** Every returned row is the loop body run on some roster entry. *)
Lemma scorer_rows {S : SortValues} supabase b year row :
  In row (returned (compute_match_scores_optimized supabase b year)) ->
  exists db emp_id,
    supabase = Some db
    /\ In emp_id (all_emp_ids_of db year)
    /\ row = score_employee (comp_df_of db year) (fetch_psych db) b emp_id.
Proof.
  unfold compute_match_scores_optimized.
  destruct supabase as [db|]; [|intros []].
  destruct (all_emp_ids_of db year) as [|e0 es] eqn:Er; [intros []|].
  destruct (comp_df_of db year) as [|c0 cs] eqn:Ec; [intros []|].
  cbn [returned quiet]. intros Hin.
  apply (Permutation_in _ (sort_values_perm _)) in Hin.
  apply in_map_iff in Hin. destruct Hin as [e [<- He]].
  exists db, e. rewrite Er, Ec. repeat split. exact He.
Qed.

(** Every roster entry gets its row, provided the run gets past both checks. *)
Lemma scorer_covers_roster {S : SortValues} db b year emp_id :
  In emp_id (all_emp_ids_of db year) ->
  comp_df_of db year <> [] ->
  In (score_employee (comp_df_of db year) (fetch_psych db) b emp_id)
     (returned (compute_match_scores_optimized (Some db) b year)).
Proof.
  intros He Hc. rewrite scorer_success; [|intros E; rewrite E in He; exact He|exact Hc].
  cbn [returned quiet].
  apply (Permutation_in _ (Permutation_sym (sort_values_perm _))).
  apply in_map. exact He.
Qed.

(** With a roster but no competency record for the year, the run ends in
    the outer handler: one reported error, no rows. *)
Lemma scorer_without_competency_records {S : SortValues} db b year :
  all_emp_ids_of db year <> [] ->
  comp_df_of db year = [] ->
  compute_match_scores_optimized (Some db) b year
  = st_error "❌ Error: 'employee_id'" [].
Proof.
  intros Hr Hc. unfold compute_match_scores_optimized.
  destruct (all_emp_ids_of db year); [congruence|].
  rewrite Hc. reflexivity.
Qed.

(** C9: when the performance roster of the requested year is empty, the
    scorer reports the error "No employees found" and returns the empty
    frame: no row is produced, and the call returns normally. *)
Theorem C9_empty_roster_reports_and_returns_nothing :
  forall (S : SortValues) (db : database) (b : baseline) (year : Z),
    (forall p, In p (performance_yearly db) -> perf_year p <> year) ->
    all_emp_ids_of db year = []
    /\ compute_match_scores_optimized (Some db) b year
       = {| reported := ["❌ No employees found"%string]; returned := [] |}.
Proof.
  intros S db b year Hnone.
  assert (E : all_emp_ids_of db year = []).
  { unfold all_emp_ids_of.
    induction (performance_yearly db) as [|p t IH]; [reflexivity|].
    simpl. destruct (perf_year p =? year)%Z eqn:Ey.
    - apply Z.eqb_eq in Ey. exfalso. apply (Hnone p); [left; reflexivity|exact Ey].
    - apply IH. intros q Hq. apply Hnone. right. exact Hq. }
  split; [exact E|].
  unfold compute_match_scores_optimized. rewrite E. reflexivity.
Qed.

Lemma C9_empty_roster_reports_and_returns_nothing_witness :
  all_emp_ids_of example_db 2023 = []
  /\ compute_match_scores_optimized (S := stable_sort) (Some example_db) example_baseline 2023
     = {| reported := ["❌ No employees found"%string]; returned := [] |}.
Proof.
  apply (C9_empty_roster_reports_and_returns_nothing
           stable_sort example_db example_baseline 2023).
  simpl. intros p [<-|[<-|[<-|[<-|[<-|[]]]]]]; simpl; discriminate.
Defined.

(** ** The final score *)

Lemma rint_wd x y : x == y -> rint x = rint y.
Proof.
  intros E. unfold rint. rewrite (Qfloor_comp _ _ E).
  destruct (Qlt_le_dec (x - inject_Z (Qfloor y)) (1 # 2)) as [A|A];
    destruct (Qlt_le_dec (y - inject_Z (Qfloor y)) (1 # 2)) as [B|B];
    try reflexivity; try (exfalso; lra).
  destruct (Qlt_le_dec (1 # 2) (x - inject_Z (Qfloor y))) as [C|C];
    destruct (Qlt_le_dec (1 # 2) (y - inject_Z (Qfloor y))) as [D|D];
    try reflexivity; exfalso; lra.
Qed.

Lemma Qround2_wd x y : x == y -> Qround2 x = Qround2 y.
Proof.
  intros E. unfold Qround2. f_equal. apply rint_wd. rewrite E. reflexivity.
Qed.

(** The two placeholder terms add up to 18.75. *)
Lemma constant_terms :
  Num.add (Num.mul behav_score (Fin 0.20)) (Num.mul context_score (Fin 0.05))
  =n= Fin 18.75.
Proof. vm_compute. reflexivity. Qed.

Lemma final_score_of_defined c p :
  round2 (final_score_of (Fin c) (Fin p))
  = Fin (Qround2 (c * 0.50 + p * 0.25 + 18.75)).
Proof.
  unfold final_score_of, behav_score, context_score.
  cbn [Num.add Num.mul lift2 round2]. f_equal. apply Qround2_wd. ring.
Qed.

(** An employee without competency records of the year collects no match. *)
Lemma comp_scores_of_absent comp_df b emp_id :
  (forall r, In r comp_df -> comp_employee_id r <> emp_id) ->
  comp_scores_of comp_df b emp_id = [].
Proof.
  intros Habs. unfold comp_scores_of.
  assert (E : filter (fun r => String.eqb (comp_employee_id r) emp_id) comp_df = []).
  { induction comp_df as [|r t IH]; [reflexivity|].
    simpl. destruct (String.eqb (comp_employee_id r) emp_id) eqn:Eq.
    - apply String.eqb_eq in Eq. exfalso. apply (Habs r); [left; reflexivity|exact Eq].
    - apply IH. intros r' Hr'. apply Habs. right. exact Hr'. }
  rewrite E. induction (competencies b) as [|row t IH]; [reflexivity|].
  simpl. exact IH.
Qed.

Lemma psych_score_of_absent psych_df b emp_id :
  (forall r, In r psych_df -> psych_employee_id r <> emp_id) ->
  psych_score_of psych_df b emp_id = Fin 0.
Proof.
  intros Habs. unfold psych_score_of.
  destruct psych_df as [|r0 t0]; [reflexivity|].
  assert (E : filter (fun r => String.eqb (psych_employee_id r) emp_id) (r0 :: t0) = []).
  { induction (r0 :: t0) as [|r t IH]; [reflexivity|].
    simpl. destruct (String.eqb (psych_employee_id r) emp_id) eqn:Eq.
    - apply String.eqb_eq in Eq. exfalso. apply (Habs r); [left; reflexivity|exact Eq].
    - apply IH. intros r' Hr'. apply Habs. right. exact Hr'. }
  rewrite E. reflexivity.
Qed.



(** The row of D in the example population, evaluated. *)
Example roster_only_employee_scores_18_75 :
  In {| employee_id := "D";
        competency_score := Fin 0;
        psychometric_score := Fin 0;
        behavioral_score := Fin 75;
        contextual_score := Fin 75;
        final_match_score := Fin 18.75 |}
     (returned (compute_match_scores_optimized (S := stable_sort)
                  (Some example_db) example_baseline 2025)).
Proof. vm_compute. right. right. right. left. reflexivity. Qed.

(** ** The competency sub-score *)

Lemma hd_filter_filter {A} (p q : A -> bool) l :
  hd_error (filter q (filter p l)) = find (fun x => p x && q x) l.
Proof.
  induction l as [|x t IH]; [reflexivity|].
  simpl. destruct (p x); simpl; [|exact IH].
  destruct (q x); simpl; [reflexivity|exact IH].
Qed.

Lemma comp_loop_collects comp_df emp_id rows acc :
  fold_left
    (fun comp_scores row =>
       match filter (fun r => String.eqb (comp_pillar_code r) (dim row))
                    (filter (fun r => String.eqb (comp_employee_id r) emp_id) comp_df)
       with
       | [] => comp_scores
       | first :: _ =>
           comp_scores
             ++ [tv_match_scalar (comp_score first) (stat_mean row) (stat_std row)]
       end)
    rows acc
  = acc ++ flat_map
             (fun row =>
                match employee_pillar_score comp_df emp_id (dim row) with
                | Some v => [tv_match_scalar v (stat_mean row) (stat_std row)]
                | None => []
                end)
             rows.
Proof.
  revert acc. induction rows as [|row t IH]; intros acc.
  - simpl. symmetry. apply app_nil_r.
  - cbn [fold_left flat_map]. rewrite IH, app_assoc. f_equal.
    unfold employee_pillar_score.
    rewrite <- hd_filter_filter.
    destruct (filter _ (filter _ comp_df)) as [|first rest]; simpl.
    + symmetry. apply app_nil_r.
    + reflexivity.
Qed.

(** The loop collects exactly one match per baseline pillar the employee
    has a record for, in baseline order, and nothing for the others. *)
Lemma comp_scores_of_pillar_matches comp_df b emp_id :
  comp_scores_of comp_df b emp_id = pillar_matches comp_df b emp_id.
Proof.
  unfold comp_scores_of, pillar_matches. apply comp_loop_collects.
Qed.

Lemma pillar_matches_none comp_df b emp_id :
  (forall row, In row (competencies b) ->
               employee_pillar_score comp_df emp_id (dim row) = None) ->
  pillar_matches comp_df b emp_id = [].
Proof.
  intros H. unfold pillar_matches.
  induction (competencies b) as [|row t IH]; [reflexivity|].
  simpl. rewrite (H row (or_introl eq_refl)). simpl.
  apply IH. intros r Hr. apply H. right. exact Hr.
Qed.

(** A baseline pillar the employee has no score for adds nothing, and in
    particular no zero, to what is averaged. *)
Lemma pillar_matches_skip comp_df emp_id row rows psych :
  employee_pillar_score comp_df emp_id (dim row) = None ->
  pillar_matches comp_df {| competencies := row :: rows; psychometric := psych |} emp_id
  = pillar_matches comp_df {| competencies := rows; psychometric := psych |} emp_id.
Proof.
  intros H. unfold pillar_matches. cbn [competencies flat_map].
  rewrite H. reflexivity.
Qed.



(** A has a score for P1 only (a perfect match) while the baseline also
    has P2: the competency score is 100, not the 50 a zero for P2 would
    give. *)
Example missing_pillar_is_not_a_zero :
  List.length (pillar_matches (comp_df_of example_db 2025) example_baseline "A") = 1%nat
  /\ comp_score_of (comp_df_of example_db 2025) example_baseline "A" = Fin 100.00.
Proof. split; vm_compute; reflexivity. Qed.

(** ** The psychometric sub-score *)

Lemma hd_filter {A} (p : A -> bool) l : hd_error (filter p l) = find p l.
Proof.
  induction l as [|x t IH]; [reflexivity|].
  simpl. destruct (p x); [reflexivity|exact IH].
Qed.

(** The loop over the three weights, unrolled. *)
Lemma psych_scores_of_weighted r b b_pauli b_gtq b_iq :
  loc (psychometric b) "PAULI" = Some b_pauli ->
  loc (psychometric b) "GTQ" = Some b_gtq ->
  loc (psychometric b) "IQ" = Some b_iq ->
  psych_scores_of r b
  = weighted_match (pauli r) b_pauli 0.60
    ++ weighted_match (gtq r) b_gtq 0.28
    ++ weighted_match (iq r) b_iq 0.12.
Proof.
  intros Hp Hg Hi. unfold psych_scores_of, weights.
  cbn [fold_left]. unfold psych_step.
  change (upper "pauli") with "PAULI"%string.
  change (upper "gtq") with "GTQ"%string.
  change (upper "iq") with "IQ"%string.
  change (psych_get r "pauli") with (Some (pauli r)).
  change (psych_get r "gtq") with (Some (gtq r)).
  change (psych_get r "iq") with (Some (iq r)).
  rewrite Hp, Hg, Hi. unfold weighted_match.
  destruct (isna (pauli r)), (isna (gtq r)), (isna (iq r)); reflexivity.
Qed.



(** C has pauli on the baseline mean (match 100), no gtq value, and iq one
    standard deviation off (match 90): the score is
    [100 * 0.60 + 90 * 0.12 = 70.8], the weight 0.28 of gtq is not
    redistributed. *)
Example skipped_dimension_is_not_renormalized :
  psych_score_of (fetch_psych example_db) example_baseline "C" = Fin 70.80.
Proof. vm_compute. reflexivity. Qed.

(** With all three values NaN nothing is collected and the score is 0. *)
Lemma psychometric_score_spec_all_nan r bp bg bi :
  pauli r = NaN -> gtq r = NaN -> iq r = NaN ->
  psychometric_score_spec r bp bg bi = Fin 0.
Proof.
  intros Hp Hg Hi. unfold psychometric_score_spec, weighted_match.
  rewrite Hp, Hg, Hi. reflexivity.
Qed.

(** ** Ranking *)

Lemma filter_idem_true {A} (f : A -> bool) l :
  Forall (fun x => f x = true) l -> filter f l = l.
Proof.
  induction 1 as [|x t Hx _ IH]; simpl; [reflexivity|].
  rewrite Hx, IH. reflexivity.
Qed.

Lemma filter_none {A} (f : A -> bool) l :
  Forall (fun x => f x = false) l -> filter f l = [].
Proof.
  induction 1 as [|x t Hx _ IH]; simpl; [reflexivity|].
  rewrite Hx. exact IH.
Qed.

(** The rows with a defined final score, read off the sorted frame, are
    the ranked part of the contract. *)
Lemma sort_values_defined_part {S : SortValues} rows :
  Sorted final_ge (filter (fun r => negb (final_isna r)) (sort_values rows)).
Proof.
  destruct (sort_values_spec rows) as [ranked [E [P Srt]]].
  rewrite E, filter_app.
  rewrite (filter_idem_true _ ranked).
  - rewrite filter_none; [rewrite app_nil_r; exact Srt|].
    apply Forall_forall. intros x Hx. apply filter_In in Hx.
    destruct Hx as [_ Hx]. rewrite Hx. reflexivity.
  - apply Forall_forall. intros x Hx.
    apply (Permutation_in _ P) in Hx. apply filter_In in Hx.
    destruct Hx as [_ Hx]. exact Hx.
Qed.

Lemma sort_values_all_defined {S : SortValues} rows :
  Forall (fun r => final_isna r = false) rows ->
  Sorted final_ge (sort_values rows).
Proof.
  intros Hall.
  assert (E : filter (fun r => negb (final_isna r)) (sort_values rows)
              = sort_values rows).
  { apply filter_idem_true. apply Forall_forall. intros x Hx.
    apply (Permutation_in _ (sort_values_perm rows)) in Hx.
    rewrite Forall_forall in Hall. rewrite (Hall x Hx). reflexivity. }
  rewrite <- E. apply sort_values_defined_part.
Qed.



(** The rows of the population with a null competency score, whatever the
    sort: the NaN row is placed last. *)
Lemma null_score_frame (S : SortValues) :
  returned (compute_match_scores_optimized (Some null_score_db) example_baseline 2025)
  = [ {| employee_id := "N2";
         competency_score := Fin 0;
         psychometric_score := Fin 0;
         behavioral_score := Fin 75;
         contextual_score := Fin 75;
         final_match_score := Fin 18.75 |};
      {| employee_id := "N1";
         competency_score := NaN;
         psychometric_score := Fin 0;
         behavioral_score := Fin 75;
         contextual_score := Fin 75;
         final_match_score := NaN |} ].
Proof.
  rewrite scorer_success by (simpl; discriminate). cbn [returned quiet].
  match goal with |- sort_values ?rows = _ =>
    destruct (sort_values_spec rows) as [ranked [E [P _]]];
    rewrite E; clear E
  end.
  vm_compute in P. apply Permutation_sym in P.
  apply Permutation_length_1_inv in P. subst ranked.
  vm_compute. reflexivity.
Qed.

(** The stable sort is within the contract too: it returns A before B. *)
Example stable_sort_keeps_ties :
  map employee_id
      (returned (compute_match_scores_optimized (S := stable_sort)
                   (Some example_db) example_baseline 2025))
  = ["A"; "B"; "C"; "D"]%string.
Proof. vm_compute. reflexivity. Qed.


(** ** Score ranges *)

(** On a defined candidate the transform stays in [[0, 100]], whatever the
    baseline row holds. *)
Lemma tv_match_scalar_range v row :
  std_ok row -> within 0 100 (tv_match_scalar (Fin v) (stat_mean row) (stat_std row)).
Proof.
  unfold std_ok. destruct (stat_mean row) as [|m], (stat_std row) as [|s];
    intros Hs; try (simpl; lra).
  destruct (Qeq_bool s 0) eqn:E.
  - unfold tv_match_scalar, calculate_tv_match_vectorized. simpl.
    rewrite E. simpl. lra.
  - assert (Hpos : 0 < s).
    { destruct (Qlt_le_dec 0 s) as [L|L]; [exact L|].
      assert (Z0 : s == 0) by lra. apply Qeq_bool_iff in Z0. congruence. }
    rewrite (tv_match_scalar_defined m s Hpos). simpl.
    apply match_formula_range. exact Hpos.
Qed.

Lemma fold_add_range l a :
  Forall (within 0 100) l ->
  exists t, fold_left Num.add l (Fin a) = Fin t
            /\ a <= t <= a + 100 * inject_Z (Z.of_nat (List.length l)).
Proof.
  revert a. induction l as [|x r IH]; intros a Hl.
  - exists a. split; [reflexivity|].
    change (inject_Z (Z.of_nat (List.length (@nil num)))) with 0. lra.
  - inversion Hl as [|? ? Hx Hr]; subst.
    destruct x as [|q]; [contradiction|]. simpl in Hx.
    destruct (IH (a + q) Hr) as [t [Et Ht]].
    exists t. split; [exact Et|].
    cbn [List.length]. rewrite Nat2Z.inj_succ. unfold Z.succ.
    rewrite inject_Z_plus. change (inject_Z 1) with 1. lra.
Qed.

(** The mean of matches in [[0, 100]] is in [[0, 100]]. *)
Lemma mean_range l :
  l <> [] -> Forall (within 0 100) l -> within 0 100 (Num.mean l).
Proof.
  intros Hne Hl. unfold Num.mean, Num.sum.
  destruct (fold_add_range l 0 Hl) as [t [Et Ht]]. rewrite Et.
  assert (Hn : 1 <= inject_Z (Z.of_nat (List.length l))).
  { change 1 with (inject_Z 1). rewrite <- Zle_Qle.
    destruct l; [congruence|]. cbn [List.length]. lia. }
  cbn [Num.div].
  assert (Hpos : 0 < inject_Z (Z.of_nat (List.length l))) by lra.
  rewrite (Qeq_bool_false_of_pos _ Hpos). simpl.
  split.
  - apply Qle_shift_div_l; lra.
  - apply Qle_shift_div_r; lra.
Qed.

(** A range whose ends are hundredths survives [round(x, 2)]. *)
Lemma round2_range (a b : Z) lo hi x :
  lo == a # 100 -> hi == b # 100 ->
  within lo hi x -> within lo hi (round2 x).
Proof.
  intros Ea Eb. destruct x as [|q]; [exact (fun H => H)|].
  cbn [within round2]. rewrite Ea, Eb. apply Qround2_range.
Qed.

Section Ranges.

Variable comp_df : list competency_row.
Variable b : baseline.

Hypothesis scores_defined : forall r, In r comp_df -> isna (comp_score r) = false.
Hypothesis comp_std_ok : forall row, In row (competencies b) -> std_ok row.
Hypothesis psych_std_ok : forall row, In row (psychometric b) -> std_ok row.

Lemma pillar_matches_range emp_id :
  Forall (within 0 100) (pillar_matches comp_df b emp_id).
Proof.
  unfold pillar_matches.
  assert (K : forall rows, (forall row, In row rows -> std_ok row) ->
    Forall (within 0 100)
      (flat_map
         (fun row =>
            match employee_pillar_score comp_df emp_id (dim row) with
            | Some v => [tv_match_scalar v (stat_mean row) (stat_std row)]
            | None => []
            end) rows)).
  { induction rows as [|row t IH]; intros Hok; [constructor|].
    cbn [flat_map]. apply Forall_app. split.
    - unfold employee_pillar_score.
      destruct (find _ comp_df) as [r|] eqn:F; [|constructor].
      apply find_some in F. destruct F as [Hin _].
      specialize (scores_defined r Hin).
      simpl. destruct (comp_score r) as [|v]; [discriminate|].
      constructor; [|constructor].
      apply tv_match_scalar_range. apply Hok. left. reflexivity.
    - apply IH. intros r Hr. apply Hok. right. exact Hr. }
  apply K. exact comp_std_ok.
Qed.

Lemma comp_score_range emp_id : within 0 100 (comp_score_of comp_df b emp_id).
Proof.
  unfold comp_score_of. rewrite comp_scores_of_pillar_matches.
  pose proof (pillar_matches_range emp_id) as Hl.
  destruct (pillar_matches comp_df b emp_id) as [|x t] eqn:E; [simpl; lra|].
  apply (round2_range 0 10000); [reflexivity|reflexivity|].
  apply mean_range; [discriminate|exact Hl].
Qed.

(** One iteration adds nothing, or one term between 0 and 100 times the weight. *)
Lemma psych_step_shape r acc var w :
  0 <= w ->
  psych_step r b acc (var, w) = acc
  \/ exists x, psych_step r b acc (var, w) = acc ++ [Fin x] /\ 0 <= x <= 100 * w.
Proof.
  intros Hw. unfold psych_step.
  destruct (psych_get r var) as [val|]; [|left; reflexivity].
  destruct (loc (psychometric b) (upper var)) as [row|] eqn:L; [|left; reflexivity].
  destruct val as [|v]; [left; reflexivity|]. right. cbn [isna negb].
  apply find_some in L. destruct L as [Hin _].
  pose proof (tv_match_scalar_range v row (psych_std_ok row Hin)) as Hm.
  destruct (tv_match_scalar (Fin v) (stat_mean row) (stat_std row)) as [|m];
    [contradiction|].
  simpl in Hm. exists (m * w). split; [reflexivity|]. nra.
Qed.

Lemma psych_score_range psych_df emp_id :
  within 0 100 (psych_score_of psych_df b emp_id).
Proof.
  unfold psych_score_of.
  destruct psych_df as [|r0 t0]; [simpl; lra|].
  destruct (filter _ (r0 :: t0)) as [|r rest]; [simpl; lra|].
  unfold psych_scores_of, weights. cbn [fold_left].
  destruct (psych_step_shape r [] "pauli" 0.60 ltac:(lra)) as [E1|[x1 [E1 H1]]];
    rewrite E1; clear E1;
    match goal with |- context [psych_step r b ?acc ("gtq"%string, _)] =>
      destruct (psych_step_shape r acc "gtq" 0.28 ltac:(lra)) as [E2|[x2 [E2 H2]]]
    end; rewrite E2; clear E2;
    match goal with |- context [psych_step r b ?acc ("iq"%string, _)] =>
      destruct (psych_step_shape r acc "iq" 0.12 ltac:(lra)) as [E3|[x3 [E3 H3]]]
    end; rewrite E3; clear E3;
    cbn [app]; try (simpl; lra);
    (apply (round2_range 0 10000); [reflexivity|reflexivity|]; simpl; lra).
Qed.

Lemma final_score_range c p :
  within 0 100 c -> within 0 100 p ->
  within 18.75 93.75 (round2 (final_score_of c p)).
Proof.
  destruct c as [|c]; [contradiction|]. destruct p as [|p]; [contradiction|].
  cbn [within]. intros Hc Hp.
  apply (round2_range 1875 9375); [reflexivity|reflexivity|].
  unfold final_score_of, behav_score, context_score.
  cbn [Num.add Num.mul lift2 within]. lra.
Qed.

(** With every competency score of the year defined and no negative
    standard deviation in the baseline, each row is within the ranges. *)
Lemma score_employee_range psych_df emp_id :
  let row := score_employee comp_df psych_df b emp_id in
  within 0 100 (competency_score row)
  /\ within 0 100 (psychometric_score row)
  /\ within 18.75 93.75 (final_match_score row).
Proof.
  cbn [score_employee competency_score psychometric_score final_match_score].
  pose proof (comp_score_range emp_id) as Hc.
  pose proof (psych_score_range psych_df emp_id) as Hp.
  split; [exact Hc|]. split; [exact Hp|].
  apply final_score_range; assumption.
Qed.

End Ranges.

(** Every standard deviation the builder stores is NaN or not negative. *)
Lemma sqrt_round2_nonneg v : 0 <= sqrt_round2 v.
Proof.
  unfold sqrt_round2.
  pose proof (Z.sqrt_nonneg (Qfloor (v * 40000))) as Hs.
  assert (Hk : (0 <= Z.sqrt (Qfloor (v * 40000)) / 2)%Z) by (apply Z.div_pos; lia).
  destruct (Z.even _); [unfold Qle; cbn [Qnum Qden]; lia|].
  destruct (Qeq_bool _ _); [|unfold Qle; cbn [Qnum Qden]; lia].
  destruct (Z.even _); unfold Qle; cbn [Qnum Qden]; lia.
Qed.

Lemma series_std_round2_ok label m l :
  std_ok {| dim := label; stat_mean := m; stat_std := series_std_round2 l |}.
Proof.
  unfold std_ok, series_std_round2. cbn [stat_std].
  destruct (series_var l); [exact I|apply sqrt_round2_nonneg].
Qed.

Lemma builder_std_ok supabase selected_ids b :
  returned (compute_baseline_from_benchmarks supabase selected_ids) = Some b ->
  (forall row, In row (competencies b) -> std_ok row)
  /\ (forall row, In row (psychometric b) -> std_ok row).
Proof.
  unfold compute_baseline_from_benchmarks.
  destruct supabase as [db|]; [|discriminate].
  destruct (filter _ (competencies_yearly db)) as [|c0 cs]; [discriminate|].
  cbn [returned quiet]. intros E. injection E as <-.
  cbn [competencies psychometric]. split.
  - intros row Hin. unfold groupby_pillar_mean_std in Hin.
    apply in_map_iff in Hin. destruct Hin as [p [<- _]].
    apply series_std_round2_ok.
  - intros row Hin.
    destruct (filter _ (fetch_psych db)) as [|p0 ps].
    + simpl in Hin. destruct Hin as [<-|[<-|[<-|[]]]]; unfold std_ok; simpl; lra.
    + simpl in Hin. destruct Hin as [<-|[<-|[<-|[]]]]; apply series_std_round2_ok.
Qed.




(** ** Further properties of a run *)

(** A roster entry for the year but no competency record of that year:
    the first [comp_df['employee_id']] raises on the column-less frame,
    the outer handler reports it, and the scorer returns the empty frame;
    no employee is scored. *)
Theorem roster_without_competency_records_returns_nothing :
  forall (S : SortValues) (db : database) (b : baseline) (year : Z),
    all_emp_ids_of db year <> [] ->
    comp_df_of db year = [] ->
    compute_match_scores_optimized (Some db) b year
    = {| reported := ["❌ Error: 'employee_id'"%string]; returned := [] |}.
Proof.
  intros S db b year Hr Hc. apply scorer_without_competency_records; assumption.
Qed.

Lemma roster_without_competency_records_returns_nothing_witness :
  compute_match_scores_optimized (S := stable_sort)
    (Some no_competency_db) example_baseline 2025
  = {| reported := ["❌ Error: 'employee_id'"%string]; returned := [] |}.
Proof.
  apply (roster_without_competency_records_returns_nothing
           stable_sort no_competency_db example_baseline 2025).
  - simpl. discriminate.
  - reflexivity.
Defined.



(** The builder without benchmark competency records: it reports
    "No competency data" and returns [None]. *)
Theorem builder_without_competency_data :
  forall (db : database) (selected_ids : list string),
    (forall r, In r (competencies_yearly db) ->
               (comp_year r =? 2025)%Z
               && mem_string (comp_employee_id r) selected_ids = false) ->
    compute_baseline_from_benchmarks (Some db) selected_ids
    = {| reported := ["❌ No competency data"%string]; returned := None |}.
Proof.
  intros db ids Hnone. unfold compute_baseline_from_benchmarks.
  rewrite filter_none; [reflexivity|].
  apply Forall_forall. exact Hnone.
Qed.

Lemma builder_without_competency_data_witness :
  compute_baseline_from_benchmarks (Some two_benchmarks_db) ["e3"]%string
  = {| reported := ["❌ No competency data"%string]; returned := None |}.
Proof.
  apply (builder_without_competency_data two_benchmarks_db ["e3"]%string).
  simpl. intros r [<-|[<-|[]]]; reflexivity.
Defined.

(** Every baseline the builder returns keeps the invariant: each stored
    standard deviation is NaN or not negative, and the psychometric frame
    has its three rows. *)
Theorem builder_baseline_invariant :
  forall (supabase : option database) (selected_ids : list string) (b : baseline),
    returned (compute_baseline_from_benchmarks supabase selected_ids) = Some b ->
    (forall row, In row (competencies b) -> std_ok row)
    /\ (forall row, In row (psychometric b) -> std_ok row)
    /\ map dim (psychometric b) = ["PAULI"; "GTQ"; "IQ"]%string.
Proof.
  intros supabase ids b Hb.
  destruct (builder_std_ok supabase ids b Hb) as [Hc Hp].
  split; [exact Hc|]. split; [exact Hp|].
  revert Hb. unfold compute_baseline_from_benchmarks.
  destruct supabase as [db|]; [|discriminate].
  destruct (filter _ (competencies_yearly db)) as [|c0 cs]; [discriminate|].
  cbn [returned quiet]. intros E. injection E as <-.
  cbn [psychometric].
  destruct (filter _ (fetch_psych db)); reflexivity.
Qed.

Lemma builder_baseline_invariant_witness :
  (forall row,
      In row [ {| dim := "P1"; stat_mean := Fin 85.00; stat_std := Fin 7.07 |} ] ->
      std_ok row)
  /\ (forall row, In row fallback_psych -> std_ok row)
  /\ map dim fallback_psych = ["PAULI"; "GTQ"; "IQ"]%string.
Proof.
  apply (builder_baseline_invariant (Some two_benchmarks_db) ["e1"; "e2"]%string
           {| competencies :=
                [ {| dim := "P1"; stat_mean := Fin 85.00; stat_std := Fin 7.07 |} ];
              psychometric := fallback_psych |}).
  vm_compute. reflexivity.
Defined.

(* ------------------------------------------------------------------ *)
(** ** Beyond the scoring core *)

(** ** Shape of the transform *)

Section TransformShape.

Variables mu sigma : Q.
Hypothesis sigma_pos : 0 < sigma.

Lemma distance_le_iff v w :
  Qabs (v - mu) / sigma * 10 <= Qabs (w - mu) / sigma * 10
  <-> Qabs (v - mu) <= Qabs (w - mu).
Proof.
  assert (Hi : 0 < / sigma) by (apply Qinv_lt_0_compat; exact sigma_pos).
  unfold Qdiv. set (a := Qabs (v - mu)). set (b := Qabs (w - mu)).
  set (i := / sigma) in *. split; intros H; nra.
Qed.

Lemma match_formula_antitone v w :
  Qabs (v - mu) <= Qabs (w - mu) ->
  Qmax 0 (100 - Qabs (w - mu) / sigma * 10)
  <= Qmax 0 (100 - Qabs (v - mu) / sigma * 10).
Proof.
  intros H. apply distance_le_iff in H.
  apply Q.max_le_compat_l. lra.
Qed.

Lemma match_formula_floor_iff v :
  Qmax 0 (100 - Qabs (v - mu) / sigma * 10) == 0 <-> 10 * sigma <= Qabs (v - mu).
Proof.
  assert (E : Qabs (v - mu) == Qabs (v - mu) / sigma * sigma) by (field; lra).
  set (d := Qabs (v - mu) / sigma) in *.
  assert (K : 10 * sigma <= Qabs (v - mu) <-> 10 <= d).
  { rewrite E. split; intros H; nra. }
  rewrite K.
  destruct (Q.max_spec 0 (100 - d * 10)) as [[L ->]|[L ->]]; split; intros; lra.
Qed.

End TransformShape.


(** ** Each employee is scored from their own records *)

Lemma psych_score_of_own psych_df b emp_id :
  psych_score_of psych_df b emp_id
  = match filter (fun r => String.eqb (psych_employee_id r) emp_id) psych_df with
    | [] => Fin 0
    | emp_psych :: _ =>
        match psych_scores_of emp_psych b with
        | [] => Fin 0
        | psych_scores => round2 (Num.sum psych_scores)
        end
    end.
Proof.
  unfold psych_score_of. destruct psych_df; reflexivity.
Qed.



(** ** Benchmarks without spread *)

Lemma Qsum_all_equal x xs :
  Forall (fun y => y == x) xs -> Qsum xs == Qlen xs * x.
Proof.
  induction 1 as [|y t Hy _ IH].
  - unfold Qlen. simpl. ring.
  - change (Qsum (y :: t)) with (y + Qsum t).
    rewrite Qlen_cons, IH, Hy. ring.
Qed.

Lemma Qsum_all_zero xs : Forall (fun y => y == 0) xs -> Qsum xs == 0.
Proof.
  intros H. rewrite (Qsum_all_equal 0 xs H). ring.
Qed.

Lemma sample_variance_all_equal x xs :
  (2 <= List.length xs)%nat ->
  Forall (fun y => y == x) xs -> sample_variance xs == 0.
Proof.
  intros Hn Hall. unfold sample_variance.
  assert (Hlen : 2 <= Qlen xs).
  { unfold Qlen. change 2 with (inject_Z 2). rewrite <- Zle_Qle. lia. }
  assert (Hm : sample_mean xs == x).
  { unfold sample_mean. rewrite (Qsum_all_equal x xs Hall). field. lra. }
  assert (Hz : Qsum (map (fun y => (y - sample_mean xs) * (y - sample_mean xs)) xs) == 0).
  { apply Qsum_all_zero. apply Forall_map.
    eapply Forall_impl; [|exact Hall].
    intros y Hy. cbv beta. rewrite Hy, Hm. ring. }
  rewrite Hz. field. lra.
Qed.

Lemma sqrt_round2_zero v : v == 0 -> sqrt_round2 v = 0 # 100.
Proof.
  intros E. unfold sqrt_round2.
  assert (F : Qfloor (v * 40000) = 0%Z).
  { rewrite (Qfloor_comp (v * 40000) 0); [reflexivity|]. rewrite E. ring. }
  rewrite F. reflexivity.
Qed.

Lemma guard_closed_gives_zero candidate_scores baseline_mean baseline_std :
  baseline_std = NaN \/ is_zero baseline_std = true ->
  calculate_tv_match_vectorized candidate_scores baseline_mean baseline_std
  = map (fun _ => Fin 0) candidate_scores.
Proof.
  intros H. unfold calculate_tv_match_vectorized.
  assert (G : isna baseline_mean || isna baseline_std || is_zero baseline_std = true).
  { destruct H as [-> | H].
    - apply orb_true_iff. left. apply orb_true_r.
    - rewrite H. apply orb_true_r. }
  rewrite G. reflexivity.
Qed.

(** When the defined benchmark scores of a pillar are all the same value,
    or there is just one of them, the stored standard deviation is 0 or
    NaN, and the transform then gives 0 on that pillar for every candidate,
    a candidate sitting exactly on the benchmark value included. *)
Theorem benchmarks_without_spread_match_nobody :
  forall (db : database) (selected_ids : list string) (p : string) (x : Q),
    let comp_df :=
      filter (fun r => (comp_year r =? 2025)%Z
                       && mem_string (comp_employee_id r) selected_ids)
             (competencies_yearly db) in
    let xs :=
      dropna (map comp_score
                  (filter (fun r => String.eqb (comp_pillar_code r) p) comp_df)) in
    In p (map comp_pillar_code comp_df) ->
    Forall (fun y => y == x) xs ->
    exists b row,
      compute_baseline_from_benchmarks (Some db) selected_ids = quiet (Some b)
      /\ loc (competencies b) p = Some row
      /\ (stat_std row = NaN \/ stat_std row = Fin 0.00)
      /\ forall candidate_scores,
           calculate_tv_match_vectorized candidate_scores (stat_mean row) (stat_std row)
           = map (fun _ => Fin 0) candidate_scores.
Proof.
  intros db ids p x comp_df xs Hin Hall.
  assert (Hne : comp_df <> []).
  { intros E. rewrite E in Hin. exact Hin. }
  destruct (builder_competencies db ids Hne) as [b [Hb Hc]].
  exists b. eexists. split; [exact Hb|].
  rewrite Hc. split; [apply groupby_pillar_loc; exact Hin|].
  cbn [stat_mean stat_std]. fold comp_df.
  assert (Hstd :
    series_std_round2
      (map comp_score (filter (fun r => String.eqb (comp_pillar_code r) p) comp_df))
    = NaN
    \/ series_std_round2
         (map comp_score (filter (fun r => String.eqb (comp_pillar_code r) p) comp_df))
       = Fin 0.00).
  { unfold series_std_round2.
    destruct (le_lt_dec 2 (List.length xs)) as [L|L].
    - right. unfold xs in L. rewrite (series_var_defined _ L). f_equal.
      apply sqrt_round2_zero. apply (sample_variance_all_equal x); assumption.
    - left. unfold series_var. fold xs.
      destruct xs as [|a [|a' t]]; [reflexivity|reflexivity|simpl in L; lia]. }
  split; [exact Hstd|].
  intros vs. apply guard_closed_gives_zero.
  destruct Hstd as [-> | ->]; [left; reflexivity|right; reflexivity].
Qed.

Lemma benchmarks_without_spread_match_nobody_witness :
  exists b row,
    compute_baseline_from_benchmarks (Some flat_benchmarks_db) ["e1"; "e2"]%string
    = quiet (Some b)
    /\ loc (competencies b) "P1" = Some row
    /\ (stat_std row = NaN \/ stat_std row = Fin 0.00)
    /\ forall candidate_scores,
         calculate_tv_match_vectorized candidate_scores (stat_mean row) (stat_std row)
         = map (fun _ => Fin 0) candidate_scores.
Proof.
  apply (benchmarks_without_spread_match_nobody
           flat_benchmarks_db ["e1"; "e2"]%string "P1"%string 80).
  - simpl. left. reflexivity.
  - simpl. repeat constructor.
Defined.

(** The flat benchmark set stores mean 80.00 and std 0.00 for P1, and a
    candidate scoring exactly 80 gets match 0. *)
Example flat_benchmarks_score_zero_at_the_mean :
  returned (compute_baseline_from_benchmarks (Some flat_benchmarks_db)
                                             ["e1"; "e2"]%string)
  = Some {| competencies :=
              [ {| dim := "P1"; stat_mean := Fin 80.00; stat_std := Fin 0.00 |} ];
            psychometric := fallback_psych |}
  /\ tv_match_scalar (Fin 80) (Fin 80.00) (Fin 0.00) = Fin 0.
Proof. split; vm_compute; reflexivity. Qed.
(** ** The final score respects the sub-scores *)

Lemma rint_monotone x y : x <= y -> (rint x <= rint y)%Z.
Proof.
  intros Hxy.
  destruct (Z_le_gt_dec (rint x) (rint y)) as [L|G]; [exact L|exfalso].
  pose proof (rint_upper x) as Ux. pose proof (rint_lower y) as Ly.
  assert (G' : inject_Z (rint y) + 1 <= inject_Z (rint x)).
  { change 1 with (inject_Z 1). rewrite <- inject_Z_plus, <- Zle_Qle. lia. }
  assert (E : x == y) by lra.
  apply rint_wd in E. lia.
Qed.

Lemma Qround2_monotone x y : x <= y -> Qround2 x <= Qround2 y.
Proof.
  intros H. unfold Qround2.
  assert (K : (rint (x * 100) <= rint (y * 100))%Z) by (apply rint_monotone; lra).
  unfold Qle. cbn [Qnum Qden]. nia.
Qed.

(** Of two returned rows, the one that is at least as good on both the
    competency and the psychometric score has a final score at least as
    high. *)
Theorem final_score_monotone_in_subscores :
  forall (S : SortValues) (supabase : option database) (b : baseline) (year : Z)
         (row1 row2 : match_result) (c1 p1 c2 p2 : Q),
    In row1 (returned (compute_match_scores_optimized supabase b year)) ->
    In row2 (returned (compute_match_scores_optimized supabase b year)) ->
    competency_score row1 = Fin c1 -> psychometric_score row1 = Fin p1 ->
    competency_score row2 = Fin c2 -> psychometric_score row2 = Fin p2 ->
    c1 <= c2 -> p1 <= p2 ->
    final_ge row2 row1.
Proof.
  intros S supabase b year row1 row2 c1 p1 c2 p2 H1 H2 Hc1 Hp1 Hc2 Hp2 Hc Hp.
  destruct (scorer_rows _ _ _ _ H1) as [db1 [e1 [_ [_ E1]]]].
  destruct (scorer_rows _ _ _ _ H2) as [db2 [e2 [_ [_ E2]]]].
  unfold final_ge.
  assert (F1 : final_match_score row1 = Fin (Qround2 (c1 * 0.50 + p1 * 0.25 + 18.75))).
  { rewrite <- final_score_of_defined, <- Hc1, <- Hp1, E1. reflexivity. }
  assert (F2 : final_match_score row2 = Fin (Qround2 (c2 * 0.50 + p2 * 0.25 + 18.75))).
  { rewrite <- final_score_of_defined, <- Hc2, <- Hp2, E2. reflexivity. }
  rewrite F1, F2. cbn [num_ge]. apply Qround2_monotone. lra.
Qed.

Lemma final_score_monotone_in_subscores_witness :
  final_ge
    (score_employee (comp_df_of example_db 2025) (fetch_psych example_db)
                    example_baseline "A")
    (score_employee (comp_df_of example_db 2025) (fetch_psych example_db)
                    example_baseline "D").
Proof.
  apply (final_score_monotone_in_subscores
           stable_sort (Some example_db) example_baseline 2025
           (score_employee (comp_df_of example_db 2025) (fetch_psych example_db)
                           example_baseline "D")
           (score_employee (comp_df_of example_db 2025) (fetch_psych example_db)
                           example_baseline "A")
           0 0 100.00 0).
  - apply scorer_covers_roster;
      [simpl; right; right; right; left; reflexivity|simpl; discriminate].
  - apply scorer_covers_roster; [simpl; left; reflexivity|simpl; discriminate].
  - vm_compute. reflexivity.
  - vm_compute. reflexivity.
  - vm_compute. reflexivity.
  - vm_compute. reflexivity.
  - vm_compute. discriminate.
  - vm_compute. discriminate.
Defined.

(** ** A missing psychometric dimension caps the psychometric score *)

Section PsychCap.

Variable b : baseline.
Hypothesis psych_std_ok : forall row, In row (psychometric b) -> std_ok row.

Lemma psych_step_cases r acc var w val :
  psych_get r var = Some val ->
  0 <= w ->
  psych_step r b acc (var, w) = acc
  \/ (isna val = false
      /\ exists x, psych_step r b acc (var, w) = acc ++ [Fin x] /\ 0 <= x <= 100 * w).
Proof.
  intros Hget Hw. unfold psych_step. rewrite Hget.
  destruct (loc (psychometric b) (upper var)) as [row|] eqn:L; [|left; reflexivity].
  destruct val as [|v]; [left; reflexivity|]. right.
  split; [reflexivity|]. cbn [isna negb].
  apply find_some in L. destruct L as [Hin _].
  pose proof (tv_match_scalar_range v row (psych_std_ok row Hin)) as Hm.
  destruct (tv_match_scalar (Fin v) (stat_mean row) (stat_std row)) as [|m];
    [contradiction|].
  simpl in Hm. exists (m * w). split; [reflexivity|]. nra.
Qed.

Lemma psych_scores_capped r :
  within 0 (100 * defined_weight r)
         (match psych_scores_of r b with
          | [] => Fin 0
          | psych_scores => round2 (Num.sum psych_scores)
          end).
Proof.
  unfold psych_scores_of, weights, defined_weight. cbn [fold_left].
  destruct (psych_step_cases r [] "pauli" 0.60 (pauli r) eq_refl ltac:(lra))
    as [E1|[N1 [x1 [E1 H1]]]]; rewrite E1; clear E1;
    match goal with |- context [psych_step r b ?acc ("gtq"%string, _)] =>
      destruct (psych_step_cases r acc "gtq" 0.28 (gtq r) eq_refl ltac:(lra))
        as [E2|[N2 [x2 [E2 H2]]]]
    end; rewrite E2; clear E2;
    match goal with |- context [psych_step r b ?acc ("iq"%string, _)] =>
      destruct (psych_step_cases r acc "iq" 0.12 (iq r) eq_refl ltac:(lra))
        as [E3|[N3 [x3 [E3 H3]]]]
    end; rewrite E3; clear E3;
    cbn [app];
    destruct (isna (pauli r)), (isna (gtq r)), (isna (iq r));
    try discriminate;
    try (cbn [within]; lra);
    match goal with
    | |- within 0 ?hi _ =>
        let n := eval vm_compute in (Qfloor (hi * 100)) in
        apply (round2_range 0 n); [reflexivity|reflexivity|]
    end; cbn [Num.sum fold_left Num.add lift2 within]; lra.
Qed.

End PsychCap.


(** ** Categories *)

Lemma score_geb_true x q : score_geb (Fin x) q = true <-> q <= x.
Proof. apply Qle_bool_iff. Qed.

Lemma score_geb_false x q : score_geb (Fin x) q = false <-> x < q.
Proof.
  cbn [score_geb]. split; intros H.
  - destruct (Qlt_le_dec x q) as [L|L]; [exact L|].
    apply Qle_bool_iff in L. congruence.
  - destruct (Qle_bool q x) eqn:E; [|reflexivity].
    apply Qle_bool_iff in E. lra.
Qed.

Lemma get_category_cases (s : Q) :
  (80 <= s /\ get_category (Fin s) = Excellent)
  \/ (60 <= s < 80 /\ get_category (Fin s) = Good)
  \/ (40 <= s < 60 /\ get_category (Fin s) = Moderate)
  \/ (s < 40 /\ get_category (Fin s) = Low).
Proof.
  unfold get_category.
  destruct (score_geb (Fin s) 80) eqn:E80.
  { left. apply score_geb_true in E80. auto. }
  apply score_geb_false in E80.
  destruct (score_geb (Fin s) 60) eqn:E60.
  { right. left. apply score_geb_true in E60. auto. }
  apply score_geb_false in E60.
  destruct (score_geb (Fin s) 40) eqn:E40.
  { right. right. left. apply score_geb_true in E40. auto. }
  apply score_geb_false in E40. right. right. right. auto.
Qed.

Lemma get_category_monotone (s1 s2 : Q) :
  s1 <= s2 ->
  (category_rank (get_category (Fin s2)) <= category_rank (get_category (Fin s1)))%nat.
Proof.
  intros Hle.
  destruct (get_category_cases s1) as [[H1 ->]|[[H1 ->]|[[H1 ->]|[H1 ->]]]];
    destruct (get_category_cases s2) as [[H2 ->]|[[H2 ->]|[[H2 ->]|[H2 ->]]]];
    cbn [category_rank]; try lia; exfalso; lra.
Qed.

(** A better final score never means a worse category, NaN being last. *)
Lemma get_category_num_ge a b :
  num_ge a b ->
  (category_rank (get_category a) <= category_rank (get_category b))%nat.
Proof.
  destruct a as [|x], b as [|y]; cbn [num_ge]; try contradiction.
  apply get_category_monotone.
Qed.

(** [get_category] cuts the scores at 80, 60 and 40, the bounds belonging
    to the better category; a NaN score is labelled Low; and a higher score
    never gets a worse category. *)
Theorem get_category_thresholds :
  (forall s : Q,
      (get_category (Fin s) = Excellent <-> 80 <= s)
      /\ (get_category (Fin s) = Good <-> 60 <= s < 80)
      /\ (get_category (Fin s) = Moderate <-> 40 <= s < 60)
      /\ (get_category (Fin s) = Low <-> s < 40))
  /\ get_category NaN = Low
  /\ (forall s1 s2 : Q,
         s1 <= s2 ->
         (category_rank (get_category (Fin s2))
          <= category_rank (get_category (Fin s1)))%nat).
Proof.
  split; [|split; [reflexivity|exact get_category_monotone]].
  intros s.
  destruct (get_category_cases s) as [[H ->]|[[H ->]|[[H ->]|[H ->]]]];
    repeat split; intros; try reflexivity; try discriminate; lra.
Qed.

(** ** The ranked talent list *)

Lemma StronglySorted_app {A} (R : A -> A -> Prop) l1 l2 :
  StronglySorted R l1 -> StronglySorted R l2 ->
  (forall a b, In a l1 -> In b l2 -> R a b) ->
  StronglySorted R (l1 ++ l2).
Proof.
  intros H1 H2 H12. induction H1 as [|a t Ht IH Ha]; [exact H2|].
  simpl. constructor.
  - apply IH. intros x y Hx Hy. apply H12; [right; exact Hx|exact Hy].
  - apply Forall_app. split; [exact Ha|].
    apply Forall_forall. intros y Hy. apply H12; [left; reflexivity|exact Hy].
Qed.

Lemma StronglySorted_alike {A} (R : A -> A -> Prop) l :
  (forall a b, In a l -> In b l -> R a b) -> StronglySorted R l.
Proof.
  induction l as [|a t IH]; intros H; constructor.
  - apply IH. intros x y Hx Hy. apply H; right; assumption.
  - apply Forall_forall. intros y Hy. apply H; [left; reflexivity|right; exact Hy].
Qed.

(** Replacing each element of a sorted list by a run of elements that
    project back to it keeps the list sorted. *)
Lemma StronglySorted_flat_map {A B} (R : A -> A -> Prop) (proj : B -> A)
      (g : A -> list B) l :
  (forall x, R x x) ->
  (forall x y, In y (g x) -> proj y = x) ->
  StronglySorted R l ->
  StronglySorted (fun p q => R (proj p) (proj q)) (flat_map g l).
Proof.
  intros Hrefl Hproj Hs. induction Hs as [|a t Ht IH Ha]; [constructor|].
  cbn [flat_map]. apply StronglySorted_app.
  - apply StronglySorted_alike. intros x y Hx Hy.
    rewrite (Hproj a x Hx), (Hproj a y Hy). apply Hrefl.
  - exact IH.
  - intros x y Hx Hy. rewrite (Hproj a x Hx).
    apply in_flat_map in Hy. destruct Hy as [z [Hz Hy]].
    rewrite (Hproj z y Hy).
    rewrite Forall_forall in Ha. apply Ha. exact Hz.
Qed.

Lemma StronglySorted_map {A B} (R : B -> B -> Prop) (f : A -> B) l :
  StronglySorted (fun x y => R (f x) (f y)) l -> StronglySorted R (map f l).
Proof.
  induction 1 as [|a t Ht IH Ha]; [constructor|].
  simpl. constructor; [exact IH|].
  apply Forall_map. exact Ha.
Qed.

Lemma StronglySorted_impl {A} (R R' : A -> A -> Prop) l :
  (forall a b, R a b -> R' a b) -> StronglySorted R l -> StronglySorted R' l.
Proof.
  intros H. induction 1 as [|a t Ht IH Ha]; constructor; [exact IH|].
  eapply Forall_impl; [|exact Ha]. intros y. apply H.
Qed.

Lemma final_ge_trans : Relations_1.Transitive final_ge.
Proof.
  intros r1 r2 r3. unfold final_ge.
  destruct (final_match_score r1), (final_match_score r2), (final_match_score r3);
    cbn [num_ge]; try contradiction. intros; lra.
Qed.

(** The sorted frame runs through the categories from best to worst. *)
Lemma sort_values_by_category {S : SortValues} rows :
  StronglySorted category_before (sort_values rows).
Proof.
  destruct (sort_values_spec rows) as [ranked [E [P Srt]]]. rewrite E.
  apply StronglySorted_app.
  - apply Sorted_StronglySorted in Srt; [|exact final_ge_trans].
    apply (StronglySorted_impl final_ge); [|exact Srt].
    intros a c Hac. apply get_category_num_ge. exact Hac.
  - apply StronglySorted_alike. intros a c Ha Hc.
    apply filter_In in Ha. apply filter_In in Hc.
    destruct Ha as [_ Ha], Hc as [_ Hc]. unfold category_before, final_isna in *.
    destruct (final_match_score a); [|discriminate].
    destruct (final_match_score c); [|discriminate]. constructor.
  - intros a c _ Hc. apply filter_In in Hc. destruct Hc as [_ Hc].
    unfold category_before, final_isna in *.
    destruct (final_match_score c); [|discriminate].
    change (get_category NaN) with Low. cbn [category_rank].
    destruct (get_category (final_match_score a)); cbn [category_rank]; lia.
Qed.

Lemma merge_names_fst (emp_names : list employee_row) (x : match_result)
      (rn : match_result * option string) :
  In rn (match filter (fun e => String.eqb (emp_employee_id e) (employee_id x)) emp_names with
         | [] => [(x, None)]
         | es => map (fun e => (x, Some (fullname e))) es
         end) ->
  fst rn = x.
Proof.
  destruct (filter _ emp_names) as [|e es].
  - intros [<-|[]]. reflexivity.
  - intros H. apply in_map_iff in H. destruct H as [e' [<- _]]. reflexivity.
Qed.

Lemma ranked_talent_scored match_scores emp_names :
  map scored (ranked_talent_of match_scores emp_names)
  = map fst (match emp_names with
             | [] => map (fun r => (r, None)) match_scores
             | _ :: _ => merge_names match_scores emp_names
             end).
Proof.
  unfold ranked_talent_of. rewrite map_map. reflexivity.
Qed.

Lemma ranked_talent_category match_scores emp_names t :
  In t (ranked_talent_of match_scores emp_names) ->
  talent_category t = get_category (final_match_score (scored t)).
Proof.
  unfold ranked_talent_of. intros H. apply in_map_iff in H.
  destruct H as [rn [<- _]]. reflexivity.
Qed.

(** When no two employee rows share an id, every score row finds at most
    one name. *)
Lemma filter_unique_id emp_names id :
  NoDup (map emp_employee_id emp_names) ->
  (List.length (filter (fun e => String.eqb (emp_employee_id e) id) emp_names) <= 1)%nat.
Proof.
  induction emp_names as [|e t IH]; intros Hnd; [simpl; lia|].
  inversion Hnd as [|? ? Hnotin Hnd']; subst.
  cbn [filter]. destruct (String.eqb (emp_employee_id e) id) eqn:E.
  - apply String.eqb_eq in E. subst.
    assert (Z : filter (fun e0 => String.eqb (emp_employee_id e0) (emp_employee_id e)) t = []).
    { apply filter_none. apply Forall_forall. intros x Hx.
      destruct (String.eqb (emp_employee_id x) (emp_employee_id e)) eqn:Ex;
        [|reflexivity].
      apply String.eqb_eq in Ex. exfalso. apply Hnotin.
      rewrite <- Ex. apply in_map. exact Hx. }
    rewrite Z. simpl. lia.
  - apply IH. exact Hnd'.
Qed.

Lemma merge_names_unique match_scores emp_names :
  NoDup (map emp_employee_id emp_names) ->
  map fst (merge_names match_scores emp_names) = match_scores.
Proof.
  intros Hnd. unfold merge_names.
  induction match_scores as [|r t IH]; [reflexivity|].
  cbn [flat_map]. rewrite map_app, IH.
  pose proof (filter_unique_id emp_names (employee_id r) Hnd) as L.
  destruct (filter _ emp_names) as [|e [|e' es]]; [reflexivity|reflexivity|].
  simpl in L. lia.
Qed.

(** The ranked talent list keeps the order of the score frame: read from
    the top its categories never improve (NaN rows, labelled Low, come
    last); every scored row appears in it and nothing else does; each
    row's category is [get_category] of its final score; and when no two
    employee rows share an id it has exactly the rows of the score frame,
    in the same order. *)
Theorem ranked_talent_keeps_the_ranking :
  forall (S : SortValues) (rows : list match_result) (emp_names : list employee_row),
    let ranked_talent := ranked_talent_of (sort_values rows) emp_names in
    StronglySorted (fun c1 c2 => (category_rank c1 <= category_rank c2)%nat)
                   (map talent_category ranked_talent)
    /\ (forall r, In r (map scored ranked_talent) <-> In r rows)
    /\ (forall t, In t ranked_talent ->
                  talent_category t = get_category (final_match_score (scored t)))
    /\ (NoDup (map emp_employee_id emp_names) ->
        map scored ranked_talent = sort_values rows).
Proof.
  intros S rows names ranked_talent.
  assert (Hfst : forall x rn,
             In rn (match filter (fun e => String.eqb (emp_employee_id e) (employee_id x))
                                 names with
                    | [] => [(x, None)]
                    | es => map (fun e => (x, Some (fullname e))) es
                    end) -> fst rn = x).
  { intros x rn. apply merge_names_fst. }
  split; [|split; [|split]].
  - (* categories *)
    assert (Hs : StronglySorted
                   (fun p q : match_result * option string =>
                      category_before (fst p) (fst q))
                   (match names with
                    | [] => map (fun r => (r, None)) (sort_values rows)
                    | _ :: _ => merge_names (sort_values rows) names
                    end)).
    { destruct names as [|n0 ns].
      - pose proof (sort_values_by_category rows) as H.
        induction H as [|a t Ht IH Ha]; [constructor|].
        simpl. constructor; [exact IH|].
        apply Forall_map. exact Ha.
      - unfold merge_names.
        apply (StronglySorted_flat_map category_before fst).
        + intros x. unfold category_before. lia.
        + intros x y Hy. apply (Hfst x y Hy).
        + apply sort_values_by_category. }
    unfold ranked_talent, ranked_talent_of. rewrite map_map. cbn [talent_category].
    apply StronglySorted_map with
      (f := fun rn : match_result * option string =>
              get_category (final_match_score (fst rn))).
    exact Hs.
  - (* same rows *)
    intros r. unfold ranked_talent. rewrite ranked_talent_scored.
    rewrite <- (Permutation_in' (eq_refl r) (sort_values_perm rows)).
    destruct names as [|n0 ns].
    + rewrite map_map. cbn [fst]. rewrite map_id. reflexivity.
    + unfold merge_names. split.
      * intros H. apply in_map_iff in H. destruct H as [rn [<- H]].
        apply in_flat_map in H. destruct H as [x [Hx Hrn]].
        rewrite (Hfst x rn Hrn). exact Hx.
      * intros H. apply in_map_iff.
        destruct (filter (fun e => String.eqb (emp_employee_id e) (employee_id r))
                         (n0 :: ns)) as [|e es] eqn:F.
        -- exists (r, None). split; [reflexivity|].
           apply in_flat_map. exists r. split; [exact H|].
           rewrite F. left. reflexivity.
        -- exists (r, Some (fullname e)). split; [reflexivity|].
           apply in_flat_map. exists r. split; [exact H|].
           rewrite F. left. reflexivity.
  - intros t. apply ranked_talent_category.
  - intros Hnd. unfold ranked_talent. rewrite ranked_talent_scored.
    destruct names as [|n0 ns].
    + rewrite map_map. cbn [fst]. apply map_id.
    + apply merge_names_unique. exact Hnd.
Qed.

(** ** The summary insights *)

Lemma ranked_talent_top match_scores emp_names t ts :
  ranked_talent_of match_scores emp_names = t :: ts ->
  exists rest, match_scores = scored t :: rest.
Proof.
  unfold ranked_talent_of. destruct match_scores as [|r rest]; intros H.
  - destruct emp_names; discriminate H.
  - exists rest. f_equal.
    destruct emp_names as [|n0 ns].
    + cbn [map] in H. injection H as <- _. reflexivity.
    + unfold merge_names in H. cbn [flat_map] in H.
      destruct (filter _ (n0 :: ns)) as [|e es];
        cbn [map app] in H; injection H as <- _; reflexivity.
Qed.

Lemma sort_values_top {S : SortValues} rows top rest row :
  sort_values rows = top :: rest ->
  In row rows -> final_isna row = false -> final_ge top row.
Proof.
  intros E Hin Hdef.
  destruct (sort_values_spec rows) as [ranked [E' [P Srt]]].
  assert (Hr : In row ranked).
  { apply (Permutation_in _ (Permutation_sym P)). apply filter_In.
    split; [exact Hin|]. rewrite Hdef. reflexivity. }
  rewrite E' in E. destruct ranked as [|r0 rs]; [contradiction|].
  cbn [app] in E. injection E as <- _.
  apply Sorted_StronglySorted in Srt; [|exact final_ge_trans].
  inversion Srt as [|? ? _ Hall]; subst.
  destruct Hr as [<-|Hr].
  - assert (D : final_isna r0 = false) by exact Hdef.
    unfold final_ge, final_isna in *.
    destruct (final_match_score r0); [discriminate|]. cbn [num_ge]. lra.
  - rewrite Forall_forall in Hall. apply Hall. exact Hr.
Qed.

Lemma excellent_prefix l :
  StronglySorted category_before l ->
  filter (fun r => score_geb (final_match_score r) 80) l
  = firstn (excellent_count l) l.
Proof.
  unfold excellent_count.
  induction 1 as [|a t Ht IH Ha]; [reflexivity|].
  cbn [filter]. destruct (score_geb (final_match_score a) 80) eqn:E.
  - cbn [List.length firstn]. f_equal. exact IH.
  - assert (Z : filter (fun r => score_geb (final_match_score r) 80) t = []).
    { apply filter_none. eapply Forall_impl; [|exact Ha].
      intros y Hy. unfold category_before, get_category in Hy.
      rewrite E in Hy.
      destruct (score_geb (final_match_score y) 80); [|reflexivity].
      exfalso. cbn [category_rank] in Hy.
      destruct (score_geb (final_match_score a) 60);
        [|destruct (score_geb (final_match_score a) 40)];
        cbn [category_rank] in Hy; lia. }
    rewrite Z. reflexivity.
Qed.

(** What the summary shows: the top match (the first row of the ranked
    list) has a final score at least as high as that of every scored row
    with a defined final score; and the candidates counted as Excellent
    are exactly the rows labelled Excellent, which are the first rows of
    the score frame. *)
Theorem summary_insights_agree_with_the_ranking :
  forall (S : SortValues) (rows : list match_result) (emp_names : list employee_row),
    let match_scores := sort_values rows in
    (forall top others row,
        ranked_talent_of match_scores emp_names = top :: others ->
        In row rows -> final_isna row = false ->
        final_ge (scored top) row)
    /\ excellent_count match_scores
       = List.length
           (filter (fun r => match get_category (final_match_score r) with
                             | Excellent => true
                             | _ => false
                             end) match_scores)
    /\ firstn (excellent_count match_scores) match_scores
       = filter (fun r => match get_category (final_match_score r) with
                          | Excellent => true
                          | _ => false
                          end) match_scores.
Proof.
  intros S rows names match_scores.
  assert (F : forall l,
             filter (fun r => match get_category (final_match_score r) with
                              | Excellent => true
                              | _ => false
                              end) l
             = filter (fun r => score_geb (final_match_score r) 80) l).
  { intros l. apply filter_ext. intros r. unfold get_category.
    destruct (score_geb (final_match_score r) 80); [reflexivity|].
    destruct (score_geb (final_match_score r) 60); [reflexivity|].
    destruct (score_geb (final_match_score r) 40); reflexivity. }
  split; [|split].
  - intros top others row Htop Hin Hdef.
    destruct (ranked_talent_top _ _ _ _ Htop) as [rest E].
    apply (sort_values_top rows (scored top) rest); assumption.
  - rewrite F. reflexivity.
  - rewrite F. symmetry. apply excellent_prefix.
    apply sort_values_by_category.
Qed.

(** ** Missing data and the category *)

Lemma tv_match_scalar_nan_or_range v row :
  std_ok row ->
  tv_match_scalar v (stat_mean row) (stat_std row) = NaN
  \/ within 0 100 (tv_match_scalar v (stat_mean row) (stat_std row)).
Proof.
  intros Hok. destruct v as [|x].
  - unfold tv_match_scalar, calculate_tv_match_vectorized.
    destruct (isna (stat_mean row) || isna (stat_std row) || is_zero (stat_std row)).
    + right. simpl. lra.
    + left. reflexivity.
  - right. apply tv_match_scalar_range. exact Hok.
Qed.

Lemma fold_add_nan l : fold_left Num.add l NaN = NaN.
Proof. induction l as [|x t IH]; [reflexivity|exact IH]. Qed.

Lemma fold_add_nan_or_range l a :
  Forall (fun x => x = NaN \/ within 0 100 x) l ->
  fold_left Num.add l (Fin a) = NaN
  \/ exists t, fold_left Num.add l (Fin a) = Fin t
               /\ a <= t <= a + 100 * inject_Z (Z.of_nat (List.length l)).
Proof.
  revert a. induction l as [|x r IH]; intros a Hl.
  - right. exists a. split; [reflexivity|].
    change (inject_Z (Z.of_nat (List.length (@nil num)))) with 0. lra.
  - inversion Hl as [|? ? Hx Hr]; subst.
    destruct x as [|q].
    + left. cbn [fold_left]. apply fold_add_nan.
    + destruct Hx as [Hx|Hx]; [discriminate|]. cbn [within] in Hx.
      destruct (IH (a + q) Hr) as [N|[t [Et Ht]]]; [left; exact N|].
      right. exists t. split; [exact Et|].
      cbn [List.length]. rewrite Nat2Z.inj_succ. unfold Z.succ.
      rewrite inject_Z_plus. change (inject_Z 1) with 1. lra.
Qed.

(** Whatever the competency records hold, the competency score is NaN or
    lies in [[0, 100]]. *)
Lemma comp_score_nan_or_range comp_df b emp_id :
  (forall row, In row (competencies b) -> std_ok row) ->
  comp_score_of comp_df b emp_id = NaN
  \/ within 0 100 (comp_score_of comp_df b emp_id).
Proof.
  intros Hok. unfold comp_score_of. rewrite comp_scores_of_pillar_matches.
  assert (Hl : Forall (fun x => x = NaN \/ within 0 100 x)
                      (pillar_matches comp_df b emp_id)).
  { unfold pillar_matches. revert Hok.
    induction (competencies b) as [|row t IH]; intros Hok; [constructor|].
    cbn [flat_map]. apply Forall_app. split.
    - destruct (employee_pillar_score comp_df emp_id (dim row)); [|constructor].
      constructor; [|constructor].
      apply tv_match_scalar_nan_or_range. apply Hok. left. reflexivity.
    - apply IH. intros r Hr. apply Hok. right. exact Hr. }
  destruct (pillar_matches comp_df b emp_id) as [|x t] eqn:E; [right; simpl; lra|].
  unfold Num.mean, Num.sum.
  destruct (fold_add_nan_or_range (x :: t) 0 Hl) as [N|[s [Es Hs]]].
  - left. rewrite N. reflexivity.
  - right. rewrite Es.
    assert (Hn : 1 <= inject_Z (Z.of_nat (List.length (x :: t)))).
    { change 1 with (inject_Z 1). rewrite <- Zle_Qle. cbn [List.length]. lia. }
    assert (Hpos : 0 < inject_Z (Z.of_nat (List.length (x :: t)))) by lra.
    cbn [Num.div]. rewrite (Qeq_bool_false_of_pos _ Hpos).
    apply (round2_range 0 10000); [reflexivity|reflexivity|].
    cbn [within]. split.
    + apply Qle_shift_div_l; lra.
    + apply Qle_shift_div_r; lra.
Qed.



(** ** Benchmark selection *)

Lemma split_head_eq sep s :
  split_head sep s
  = if String.prefix sep s then EmptyString
    else match s with
         | EmptyString => EmptyString
         | String c t => String c (split_head sep t)
         end.
Proof. destruct s; reflexivity. Qed.

Lemma prefix_nil s : String.prefix EmptyString s = true.
Proof. destruct s; reflexivity. Qed.

Lemma prefix_app s rest : String.prefix s (s ++ rest) = true.
Proof.
  induction s as [|c t IH]; [apply prefix_nil|].
  cbn [String.append String.prefix].
  destruct (Ascii.ascii_dec c c) as [_|N]; [exact IH|exfalso; apply N; reflexivity].
Qed.

Lemma prefix_sep_nonspace c t :
  Ascii.eqb c (Ascii.ascii_of_nat 32) = false ->
  String.prefix " - " (String c t) = false.
Proof.
  intros H. cbn [String.prefix].
  destruct (Ascii.ascii_dec _ c) as [E|_]; [|reflexivity].
  rewrite <- E in H. discriminate H.
Qed.

Lemma split_head_label id rest :
  has_space id = false -> split_head " - " (id ++ " - " ++ rest) = id.
Proof.
  induction id as [|c t IH]; intros H.
  - change (EmptyString ++ " - " ++ rest)%string with (" - " ++ rest)%string.
    rewrite split_head_eq, prefix_app. reflexivity.
  - cbn [has_space] in H. apply orb_false_iff in H. destruct H as [Hc Ht].
    change (String c t ++ " - " ++ rest)%string
      with (String c (t ++ " - " ++ rest)).
    rewrite split_head_eq, (prefix_sep_nonspace c _ Hc). f_equal.
    apply IH. exact Ht.
Qed.

(** Membership in the high performers frame. *)
Lemma get_high_performers_In supabase e :
  In e (returned (get_high_performers supabase))
  <-> exists c,
        supabase = Some c
        /\ In e (employees c)
        /\ exists p, In p (performance_yearly (tables c))
                     /\ perf_employee_id p = emp_employee_id e
                     /\ perf_year p = 2025%Z /\ perf_rating p = 5%Z.
Proof.
  unfold get_high_performers. destruct supabase as [c|].
  - set (ids := map perf_employee_id
                    (filter (fun p => (perf_year p =? 2025)%Z && (perf_rating p =? 5)%Z)
                            (performance_yearly (tables c)))).
    assert (Hids : forall x, In x ids <->
              exists p, In p (performance_yearly (tables c))
                        /\ perf_employee_id p = x
                        /\ perf_year p = 2025%Z /\ perf_rating p = 5%Z).
    { intros x. unfold ids. rewrite in_map_iff. split.
      - intros [p [Hp Hin]]. apply filter_In in Hin. destruct Hin as [Hin Hb].
        apply andb_true_iff in Hb. destruct Hb as [Hy Hr].
        apply Z.eqb_eq in Hy. apply Z.eqb_eq in Hr. exists p. auto.
      - intros [p [Hin [Hp [Hy Hr]]]]. exists p. split; [exact Hp|].
        apply filter_In. split; [exact Hin|].
        rewrite Hy, Hr. reflexivity. }
    assert (Hmem : forall x, mem_string x ids = true <-> In x ids).
    { intros x. unfold mem_string. rewrite existsb_exists. split.
      - intros [y [Hy E]]. apply String.eqb_eq in E. subst. exact Hy.
      - intros H. exists x. split; [exact H|apply String.eqb_refl]. }
    split.
    + intros H. exists c. split; [reflexivity|].
      destruct ids as [|i0 others] eqn:Ei; [contradiction|].
      cbn [returned quiet] in H. apply filter_In in H. destruct H as [He Hm].
      split; [exact He|]. apply Hids. apply Hmem. exact Hm.
    + intros [c' [E [He Hp]]]. injection E as <-.
      apply Hids in Hp.
      destruct ids as [|i0 others] eqn:Ei; [contradiction|].
      cbn [returned quiet]. apply filter_In. split; [exact He|].
      apply Hmem. exact Hp.
  - split; [intros []|]. intros [c [E _]]. discriminate.
Qed.

(** The frame of high performers holds exactly the employee rows whose id
    has a performance row of 2025 with rating 5, in table order; when no
    performance row qualifies the function reports "No high performers
    found" and returns the empty frame. *)
Theorem get_high_performers_are_the_rating_5_of_2025 :
  forall (c : client),
    (forall e,
        In e (returned (get_high_performers (Some c)))
        <-> In e (employees c)
            /\ exists p, In p (performance_yearly (tables c))
                         /\ perf_employee_id p = emp_employee_id e
                         /\ perf_year p = 2025%Z /\ perf_rating p = 5%Z)
    /\ (exists keep, returned (get_high_performers (Some c)) = filter keep (employees c))
    /\ ((forall p, In p (performance_yearly (tables c)) ->
                   perf_year p = 2025%Z -> perf_rating p <> 5%Z) ->
        get_high_performers (Some c)
        = {| reported := ["❌ No high performers found"%string]; returned := [] |}).
Proof.
  intros c. split; [|split].
  - intros e. rewrite get_high_performers_In. split.
    + intros [c' [E H]]. injection E as <-. exact H.
    + intros H. exists c. split; [reflexivity|exact H].
  - unfold get_high_performers.
    destruct (map perf_employee_id _) as [|i0 others].
    + exists (fun _ => false). cbn [returned st_error].
      induction (employees c) as [|e t IH]; [reflexivity|exact IH].
    + eexists. reflexivity.
  - intros Hnone. unfold get_high_performers.
    rewrite filter_none; [reflexivity|].
    apply Forall_forall. intros p Hp.
    destruct (perf_year p =? 2025)%Z eqn:Ey; [|reflexivity].
    apply Z.eqb_eq in Ey. cbn [andb].
    apply Z.eqb_neq. apply Hnone; assumption.
Qed.

(** Every id handed to the baseline builder is the id of a high performer:
    when no employee id contains a space, the ids recovered from the
    chosen option labels are ids of employees with a rating of 5 in 2025,
    and the label of an employee gives back that employee's id. *)
Theorem selected_ids_are_high_performers :
  forall (c : client) (selected_benchmarks : list string),
    (forall e, In e (employees c) -> has_space (emp_employee_id e) = false) ->
    incl selected_benchmarks
         (benchmark_options (returned (get_high_performers (Some c)))) ->
    (forall e, In e (employees c) ->
               split_head " - " (option_label e) = emp_employee_id e)
    /\ forall id,
         In id (selected_ids_of selected_benchmarks) ->
         exists e p,
           In e (employees c) /\ emp_employee_id e = id
           /\ In p (performance_yearly (tables c))
           /\ perf_employee_id p = id
           /\ perf_year p = 2025%Z /\ perf_rating p = 5%Z.
Proof.
  intros c sel Hns Hincl.
  assert (Hrt : forall e, In e (employees c) ->
                          split_head " - " (option_label e) = emp_employee_id e).
  { intros e He. unfold option_label. apply split_head_label. apply Hns. exact He. }
  split; [exact Hrt|].
  intros id Hid. unfold selected_ids_of in Hid.
  apply in_map_iff in Hid. destruct Hid as [label [<- Hl]].
  apply Hincl in Hl. unfold benchmark_options in Hl.
  apply in_map_iff in Hl. destruct Hl as [e [<- He]].
  apply get_high_performers_In in He.
  destruct He as [c' [E [He [p [Hp [Hpe [Hy Hr]]]]]]]. injection E as <-.
  exists e, p. rewrite (Hrt e He). repeat split; assumption.
Qed.

(** An id that ends in " -" is not recovered from its label: the
    separator is found one character early. *)
Example split_head_needs_ids_without_spaces :
  has_space "A -" = true
  /\ split_head " - "
       (option_label {| emp_employee_id := "A -"; fullname := "Ada" |})
     = "A"%string.
Proof. split; reflexivity. Qed.

Lemma selected_ids_are_high_performers_witness :
  (forall e, In e (employees example_client) ->
             split_head " - " (option_label e) = emp_employee_id e)
  /\ forall id,
       In id (selected_ids_of ["e1 - Eka"; "e2 - Dwi"]%string) ->
       exists e p,
         In e (employees example_client) /\ emp_employee_id e = id
         /\ In p (performance_yearly (tables example_client))
         /\ perf_employee_id p = id
         /\ perf_year p = 2025%Z /\ perf_rating p = 5%Z.
Proof.
  apply (selected_ids_are_high_performers example_client
           ["e1 - Eka"; "e2 - Dwi"]%string).
  - simpl. intros e [<-|[<-|[]]]; reflexivity.
  - intros l [<-|[<-|[]]]; vm_compute; auto.
Defined.

(** ** A run of the application *)

Lemma builder_success_facts db selected_ids b :
  returned (compute_baseline_from_benchmarks (Some db) selected_ids) = Some b ->
  reported (compute_baseline_from_benchmarks (Some db) selected_ids) = []
  /\ comp_df_of db 2025 <> [].
Proof.
  unfold compute_baseline_from_benchmarks.
  destruct (filter _ (competencies_yearly db)) as [|c0 cs] eqn:F; [discriminate|].
  intros _. split; [reflexivity|].
  assert (Hin : In c0 (filter (fun r => (comp_year r =? 2025)%Z
                                      && mem_string (comp_employee_id r) selected_ids)
                              (competencies_yearly db))).
  { rewrite F. left. reflexivity. }
  apply filter_In in Hin. destruct Hin as [Hin Hb].
  apply andb_true_iff in Hb. destruct Hb as [Hy _].
  intros E. unfold comp_df_of in E.
  assert (Hin' : In c0 (filter (fun r => (comp_year r =? 2025)%Z) (competencies_yearly db))).
  { apply filter_In. split; assumption. }
  rewrite E in Hin'. exact Hin'.
Qed.

Lemma high_performers_imply_roster c :
  returned (get_high_performers (Some c)) <> [] ->
  reported (get_high_performers (Some c)) = []
  /\ all_emp_ids_of (tables c) 2025 <> [].
Proof.
  unfold get_high_performers.
  destruct (filter (fun p => (perf_year p =? 2025)%Z && (perf_rating p =? 5)%Z)
                   (performance_yearly (tables c))) as [|p0 ps] eqn:F.
  - cbn [map returned st_error]. congruence.
  - cbn [map]. intros _. split; [reflexivity|].
    assert (Hin : In p0 (filter (fun p => (perf_year p =? 2025)%Z && (perf_rating p =? 5)%Z)
                                (performance_yearly (tables c)))).
    { rewrite F. left. reflexivity. }
    apply filter_In in Hin. destruct Hin as [Hin Hb].
    apply andb_true_iff in Hb. destruct Hb as [Hy _].
    unfold all_emp_ids_of. intros E.
    assert (Hin' : In p0 (filter (fun p => (perf_year p =? 2025)%Z)
                                 (performance_yearly (tables c)))).
    { apply filter_In. split; assumption. }
    destruct (filter (fun p => (perf_year p =? 2025)%Z) (performance_yearly (tables c)));
      [exact Hin'|discriminate E].
Qed.

Lemma sort_values_nonempty {S : SortValues} rows : rows <> [] -> sort_values rows <> [].
Proof.
  intros Hne E. pose proof (sort_values_perm rows) as P. rewrite E in P.
  apply Permutation_nil in P. exact (Hne P).
Qed.



(** The error branches of a run. *)
Lemma main_reported {S : SortValues} supabase run_analysis selected_benchmarks msg :
  In msg (reported (main supabase run_analysis selected_benchmarks)) ->
  msg = "❌ No high performers found"%string
  \/ msg = "Cannot load employees"%string
  \/ msg = "❌ No competency data"%string.
Proof.
  unfold main.
  assert (Hhp : forall m, In m (reported (get_high_performers supabase)) ->
                          m = "❌ No high performers found"%string).
  { unfold get_high_performers. destruct supabase as [c|]; [|intros m []].
    destruct (map perf_employee_id _); intros m H; [|destruct H].
    destruct H as [<-|[]]. reflexivity. }
  destruct (returned (get_high_performers supabase)) as [|h hs] eqn:Ehp.
  - cbn [reported]. intros H. apply in_app_or in H.
    destruct H as [H|[<-|[]]]; [left; apply Hhp; exact H|right; left; reflexivity].
  - destruct supabase as [c|]; [|discriminate Ehp].
    assert (Hhp' : returned (get_high_performers (Some c)) <> []) by congruence.
    destruct (high_performers_imply_roster c Hhp') as [Rhp Hroster].
    destruct (run_analysis && (2 <=? List.length (selected_ids_of selected_benchmarks))%nat).
    + cbn [option_map].
      destruct (returned (compute_baseline_from_benchmarks
                            (Some (tables c)) (selected_ids_of selected_benchmarks)))
        as [b|] eqn:Eb.
      * destruct (builder_success_facts _ _ _ Eb) as [Rbo Hcomp].
        rewrite (scorer_success (tables c) b 2025 Hroster Hcomp).
        cbn [returned reported quiet].
        destruct (sort_values _); cbn [reported]; rewrite Rhp, Rbo; intros [].
      * cbn [reported]. rewrite Rhp. cbn [app].
        unfold compute_baseline_from_benchmarks.
        destruct (filter _ (competencies_yearly (tables c)));
          cbn [reported st_error quiet]; [|intros []].
        intros [<-|[]]. right. right. reflexivity.
    + destruct run_analysis; cbn [reported]; rewrite Rhp; intros [].
Qed.

(** What a run never does: it never ends with an empty score frame after
    a baseline was built, it never reports the [KeyError] of the scorer or
    an empty roster (the checks of the earlier steps rule both out), and
    it computes scores only when the button was pressed with at least two
    benchmarks chosen. *)
Theorem main_never_fails_in_the_scorer :
  forall (S : SortValues) (supabase : option client) (run_analysis : bool)
         (selected_benchmarks : list string),
    returned (main supabase run_analysis selected_benchmarks) <> NoScores
    /\ ~ In "❌ Error: 'employee_id'"%string
            (reported (main supabase run_analysis selected_benchmarks))
    /\ ~ In "❌ No employees found"%string
            (reported (main supabase run_analysis selected_benchmarks))
    /\ (forall b match_scores ranked_talent,
           returned (main supabase run_analysis selected_benchmarks)
           = Complete b match_scores ranked_talent ->
           run_analysis = true
           /\ (2 <= List.length (selected_ids_of selected_benchmarks))%nat
           /\ reported (main supabase run_analysis selected_benchmarks) = []).
Proof.
  intros S supabase run sel.
  split; [|split; [|split]].
  - unfold main.
    destruct (returned (get_high_performers supabase)) as [|h hs] eqn:Ehp;
      [discriminate|].
    destruct supabase as [c|]; [|discriminate Ehp].
    assert (Hhp' : returned (get_high_performers (Some c)) <> []) by congruence.
    destruct (high_performers_imply_roster c Hhp') as [Rhp Hroster].
    destruct (run && (2 <=? List.length (selected_ids_of sel))%nat);
      [|destruct run; discriminate].
    cbn [option_map].
    destruct (returned (compute_baseline_from_benchmarks
                          (Some (tables c)) (selected_ids_of sel))) as [b|] eqn:Eb;
      [|discriminate].
    destruct (builder_success_facts _ _ _ Eb) as [Rbo Hcomp].
    rewrite (scorer_success (tables c) b 2025 Hroster Hcomp).
    cbn [returned quiet].
    destruct (sort_values _) eqn:Es; [|discriminate].
    exfalso. apply sort_values_nonempty in Es; [exact Es|].
    intros E. apply map_eq_nil in E. exact (Hroster E).
  - intros H. apply main_reported in H. destruct H as [H|[H|H]]; discriminate H.
  - intros H. apply main_reported in H. destruct H as [H|[H|H]]; discriminate H.
  - intros b ms rt. unfold main.
    destruct (returned (get_high_performers supabase)) as [|h hs] eqn:Ehp;
      [discriminate|].
    destruct supabase as [c|]; [|discriminate Ehp].
    assert (Hhp' : returned (get_high_performers (Some c)) <> []) by congruence.
    destruct (high_performers_imply_roster c Hhp') as [Rhp Hroster].
    destruct (run && (2 <=? List.length (selected_ids_of sel))%nat) eqn:G;
      [|destruct run; discriminate].
    apply andb_true_iff in G. destruct G as [-> G]. apply Nat.leb_le in G.
    cbn [option_map].
    destruct (returned (compute_baseline_from_benchmarks
                          (Some (tables c)) (selected_ids_of sel))) as [b'|] eqn:Eb;
      [|discriminate].
    destruct (builder_success_facts _ _ _ Eb) as [Rbo Hcomp].
    rewrite (scorer_success (tables c) b' 2025 Hroster Hcomp).
    cbn [returned reported quiet].
    destruct (sort_values _); [discriminate|].
    cbn [returned reported]. intros _. rewrite Rhp, Rbo. auto.
Qed.

(** Inverting a completed run. *)
Lemma main_complete_inv {S : SortValues} supabase run_analysis selected_benchmarks
      b match_scores ranked_talent :
  returned (main supabase run_analysis selected_benchmarks)
  = Complete b match_scores ranked_talent ->
  exists c,
    supabase = Some c
    /\ returned (compute_baseline_from_benchmarks
                   (Some (tables c)) (selected_ids_of selected_benchmarks)) = Some b
    /\ match_scores
       = returned (compute_match_scores_optimized (Some (tables c)) b 2025)
    /\ ranked_talent = ranked_talent_of match_scores (employees c).
Proof.
  unfold main.
  destruct (returned (get_high_performers supabase)) as [|h hs] eqn:Ehp;
    [discriminate|].
  destruct supabase as [c|]; [|discriminate Ehp].
  destruct (run_analysis && (2 <=? List.length (selected_ids_of selected_benchmarks))%nat);
    [|destruct run_analysis; discriminate].
  cbn [option_map].
  destruct (returned (compute_baseline_from_benchmarks
                        (Some (tables c)) (selected_ids_of selected_benchmarks)))
    as [b'|] eqn:Eb; [|discriminate].
  destruct (returned (compute_match_scores_optimized (Some (tables c)) b' 2025))
    as [|m ms] eqn:Em; [discriminate|].
  cbn [returned]. intros E. injection E as <- <- <-.
  exists c. rewrite Eb. auto.
Qed.



(** ** The generated job profile *)

Lemma find_char_app c pre rest :
  find_char c pre = None ->
  find_char c (pre ++ String c rest) = Some (String.length pre).
Proof.
  induction pre as [|a t IH]; intros H.
  - cbn [String.append find_char]. rewrite Ascii.eqb_refl. reflexivity.
  - cbn [find_char] in H. cbn [String.append find_char String.length].
    destruct (Ascii.eqb a c); [discriminate|].
    destruct (find_char c t); [discriminate|].
    rewrite IH by reflexivity. reflexivity.
Qed.

Lemma rfind_char_app c x post :
  rfind_char c post = None ->
  rfind_char c (x ++ String c post) = Some (String.length x).
Proof.
  intros H. induction x as [|a t IH].
  - cbn [String.append rfind_char]. rewrite H, Ascii.eqb_refl. reflexivity.
  - cbn [String.append rfind_char String.length]. rewrite IH. reflexivity.
Qed.

Lemma substring_prefix obj post :
  String.substring 0 (String.length obj) (obj ++ post) = obj.
Proof.
  induction obj as [|a t IH].
  - destruct post; reflexivity.
  - cbn [String.append String.length String.substring]. f_equal. exact IH.
Qed.

Lemma substring_whole s : String.substring 0 (String.length s) s = s.
Proof.
  induction s as [|a t IH]; [reflexivity|].
  cbn [String.length String.substring]. f_equal. exact IH.
Qed.

Lemma substring_middle pre obj post :
  String.substring (String.length pre) (String.length obj) (pre ++ obj ++ post) = obj.
Proof.
  induction pre as [|a t IH].
  - exact (substring_prefix obj post).
  - cbn [String.append String.length String.substring]. exact IH.
Qed.

Lemma length_append (s t : string) :
  String.length (s ++ t) = (String.length s + String.length t)%nat.
Proof.
  induction s as [|a r IH]; [reflexivity|].
  cbn [String.append String.length]. rewrite IH. reflexivity.
Qed.

Section JobProfileProperties.

Variable json : Type.
Variable json_loads : string -> option json.

(** The text between the first ['{'] and the last ['}'], both included, is
    what the second parse sees. *)
Lemma profile_from_braces_fenced pre body post role_name job_level :
  find_char brace_open pre = None ->
  rfind_char brace_close post = None ->
  profile_from_braces json json_loads
    (pre ++ String brace_open (body ++ String brace_close EmptyString) ++ post)
    role_name job_level
  = match json_loads (String brace_open (body ++ String brace_close EmptyString)) with
    | Some j => Loaded j
    | None => Canned (get_fallback_profile role_name job_level)
    end.
Proof.
  intros Hpre Hpost. unfold profile_from_braces.
  set (obj := String brace_open (body ++ String brace_close EmptyString)).
  assert (F : find_char brace_open (pre ++ obj ++ post) = Some (String.length pre)).
  { unfold obj. cbn [String.append]. apply find_char_app. exact Hpre. }
  assert (R : rfind_char brace_close (pre ++ obj ++ post)
              = Some (String.length pre + String.length body + 1)%nat).
  { assert (E : (pre ++ obj ++ post
                 = (pre ++ String brace_open body) ++ String brace_close post)%string).
    { unfold obj. clear. induction pre as [|a t IH].
      - cbn [String.append]. f_equal.
        induction body as [|b u IHb]; [reflexivity|].
        cbn [String.append]. f_equal. exact IHb.
      - cbn [String.append]. f_equal. exact IH. }
    rewrite E, (rfind_char_app _ _ _ Hpost), length_append.
    cbn [String.length]. f_equal. lia. }
  rewrite F, R. cbn [py_position].
  assert (G : (0 <=? Z.of_nat (String.length pre))%Z
              && (Z.of_nat (String.length pre)
                  <? Z.of_nat (String.length pre + String.length body + 1) + 1)%Z
              = true).
  { apply andb_true_iff. split; [apply Z.leb_le|apply Z.ltb_lt]; lia. }
  rewrite G. unfold slice.
  assert (L : Z.to_nat (Z.of_nat (String.length pre + String.length body + 1) + 1
                        - Z.of_nat (String.length pre))
              = String.length obj).
  { unfold obj. cbn [String.length]. rewrite length_append. cbn [String.length]. lia. }
  rewrite L, Nat2Z.id, substring_middle. reflexivity.
Qed.

(** A reply that is not JSON as a whole but wraps a JSON object in other
    text (a code fence, a sentence before or after) is still used: with
    an API key set and status 200, if the text in front holds no ['{'],
    the text behind no ['}'], and the part from ['{'] to ['}'] parses, the
    function returns that parsed object and shows no warning. *)
Theorem wrapped_json_reply_is_recovered :
  forall (api_key pre body post role_name job_level : string) (j : json),
    String.eqb api_key EmptyString = false ->
    find_char brace_open pre = None ->
    rfind_char brace_close post = None ->
    json_loads (pre ++ String brace_open (body ++ String brace_close EmptyString) ++ post)
    = None ->
    json_loads (String brace_open (body ++ String brace_close EmptyString)) = Some j ->
    generate_job_profile_openrouter json json_loads api_key
      (Answered 200
         (Some (pre ++ String brace_open (body ++ String brace_close EmptyString)
                    ++ post)%string))
      role_name job_level
    = ([], Loaded j).
Proof.
  intros api_key pre body post role level j Hkey Hpre Hpost Hwhole Hobj.
  unfold generate_job_profile_openrouter. rewrite Hkey. cbn [Z.eqb negb Pos.eqb].
  rewrite Hwhole, (profile_from_braces_fenced _ _ _ _ _ Hpre Hpost), Hobj.
  reflexivity.
Qed.


End JobProfileProperties.

Lemma wrapped_json_reply_is_recovered_witness :
  generate_job_profile_openrouter unit loads_ok_object "key"
    (Answered 200 (Some "Here it is: {ok} Hope that helps."%string))
    "Data Analyst" "Middle"
  = ([], Loaded tt).
Proof.
  apply (wrapped_json_reply_is_recovered unit loads_ok_object
           "key" "Here it is: " "ok" " Hope that helps." "Data Analyst" "Middle" tt);
    reflexivity.
Defined.

(* ------------------------------------------------------------------ *)
(** ** Several records for one employee *)

Lemma find_later_duplicate {A} (q : A -> bool) front r middle r' back :
  q r' = q r ->
  find q (front ++ r :: middle ++ r' :: back) = find q (front ++ r :: middle ++ back).
Proof.
  intros E. induction front as [|a t IH].
  - cbn [app find]. destruct (q r) eqn:Qr; [reflexivity|].
    induction middle as [|m u IHm].
    + cbn [app find]. rewrite E. reflexivity.
    + cbn [app find]. destruct (q m); [reflexivity|exact IHm].
  - cbn [app find]. destruct (q a); [reflexivity|exact IH].
Qed.

Lemma filter_later_duplicate_head {A} (q : A -> bool) front r middle r' back :
  q r' = q r ->
  hd_error (filter q (front ++ r :: middle ++ r' :: back))
  = hd_error (filter q (front ++ r :: middle ++ back)).
Proof.
  intros E. rewrite !hd_filter. apply find_later_duplicate. exact E.
Qed.



(** ** Binary64 *)

(** On IEEE binary64 the constant terms evaluate to 18.75 without rounding
    error, and so do the final scores at both ends of the range. *)
Example binary64_constant_terms :
  Binary64.final_score 0 0 = 18.75%float
  /\ Binary64.final_score 100 100 = 93.75%float.
Proof. split; vm_compute; reflexivity. Qed.

(** The transform on binary64 at the worked example: a candidate on the
    baseline mean scores 100, and a NaN candidate comes back as NaN. *)
Example binary64_transform :
  Binary64.tv_match 85 85 7.07 = 100%float
  /\ PrimFloat.is_nan (Binary64.tv_match PrimFloat.nan 85 7.07) = true
  /\ PrimFloat.ltb 50.49%float (Binary64.tv_match 120 85 7.07) = true
  /\ PrimFloat.ltb (Binary64.tv_match 120 85 7.07) 50.50%float = true.
Proof. repeat split; vm_compute; reflexivity. Qed.

(** The benchmark scores 80 and 90 on binary64: the sample standard
    deviation lies strictly between 7.065 and 7.075, so it is stored as
    7.07. *)
Example binary64_std_80_90 :
  PrimFloat.ltb 7.065%float (Binary64.std2 80 90) = true
  /\ PrimFloat.ltb (Binary64.std2 80 90) 7.075%float = true.
Proof. split; vm_compute; reflexivity. Qed.
